(** * The parametric hollow-cylinder configurator

    A shallow embedding of the page script ([main.ts]: gesture handlers,
    download-name listener, frame loop) and of the geometry front end
    ([model/manifold.ts]), followed by the properties established about
    them.

    Numbers.  JavaScript [number]s are embedded as exact rationals [Q]:
    every operation below is the real-number meaning of the JavaScript
    operator, so rounding error of IEEE doubles is not represented;
    where a property of the rotation would hinge on exact arithmetic it
    is stated with a margin instead.  The
    literal-union type [-1 | 0 | 1] is an enumeration, tagged unions are
    inductive types, module-level [let] variables are fields of a state
    record, and a pending promise is an entry of a list of calls in
    flight that is settled by an event of the environment. *)

From Stdlib Require Import ZArith QArith Qround Qabs Qminmax Lia Lqa.
From Stdlib Require Import List String Bool DecimalString.
Import ListNotations.

Open Scope Q_scope.

(* ================================================================= *)
(** * Part I.  The embedding                                          *)
(* ================================================================= *)

(** ** JavaScript built-ins used by the sources *)

Module JS.

(** [a < b] *)
Definition Qlt_bool (a b : Q) : bool := negb (Qle_bool b a).

(** Truncation toward zero, the integer quotient underlying [%]. *)
Definition Math_trunc (q : Q) : Z :=
  if Qle_bool 0 q then Qfloor q else Qceiling q.

(** [a % b]: the remainder has the sign of the dividend. *)
Definition rem (a b : Q) : Q := a - b * inject_Z (Math_trunc (a / b)).

(** [Math.round]: nearest integer, halves toward plus infinity. *)
Definition Math_round (q : Q) : Z := Qfloor (q + (1 # 2)).

Definition Math_abs (q : Q) : Q := Qabs q.

Definition Math_max (a b : Q) : Q := if Qlt_bool a b then b else a.

Definition Math_min (a b : Q) : Q := if Qlt_bool b a then b else a.

(** [Math.PI], the double nearest to pi, as the rational it denotes. *)
Definition Math_PI : Q := 884279719003555 # 281474976710656.

(** [x.toFixed(0)] for [|x| < 10^21] (above that the built-in switches
    to exponent notation, which no dimension of this program reaches):
    the sign is split off, then the integer [n] with [n - x] closest to
    zero is printed, the larger [n] on a tie. *)
Definition toFixed0 (x : Q) : string :=
  let sign := if Qlt_bool x 0 then "-"%string else ""%string in
  let x' := if Qlt_bool x 0 then - x else x in
  let n := Qfloor (x' + (1 # 2)) in
  (sign ++ NilZero.string_of_uint (N.to_uint (Z.to_N n)))%string.

(** [parseInt(s)] is either [NaN] or an integer. *)
Definition parsed := option Z.

End JS.

(** ** The geometry kernel interface (manifold-3d)

    The kernel is an external collaborator.  Its values are kept as the
    terms the front end builds, so that what [hollowCylinder] asks of the
    kernel can be read off the result. *)

Module Kernel.

Definition Vec2 : Type := Q * Q.
Definition Vec3 : Type := Q * Q * Q.

Inductive CrossSection : Type :=
| NewCrossSection (vertices : list Vec2).

Inductive Manifold : Type :=
| cylinder (height radius : Q)
| extrude (section : CrossSection) (height : Q)
| translate (m : Manifold) (by_ : Vec3)
| rotate (m : Manifold) (degrees : Vec3)
| subtract (m cut : Manifold).

Definition vertices (c : CrossSection) : list Vec2 :=
  match c with NewCrossSection vs => vs end.

End Kernel.

(** ** [model/manifold.ts] *)

Module Model.
Import Kernel.

Section Manifold_ts.

(** [Math.cos], [Math.sin], and the sequence of values the successive
    calls of [Math.random] return during one call of a pattern builder. *)
Variables Math_cos Math_sin : Q -> Q.
Variable Math_random : nat -> Q.

(** [for (let i = 0; i < n; i++)] visits [0, 1, ..., n-1]. *)
Definition indices (n : nat) : list nat := seq 0 n.

Definition of_nat (i : nat) : Q := inject_Z (Z.of_nat i).

Definition N_SEGMENTS : nat := 64.

(** [circle(radius)] *)
Definition circle (radius : Q) : CrossSection :=
  NewCrossSection
    (map (fun i =>
            let angle := (of_nat i * 2 * JS.Math_PI) / of_nat N_SEGMENTS in
            (radius * Math_cos angle, radius * Math_sin angle))
         (indices N_SEGMENTS)).

(** [createStripPattern(outerRadius, innerRadius, height, stripCount, stripWidth)] *)
Definition createStripPattern (outerRadius innerRadius height : Q)
    (stripCount : nat) (stripWidth : Q) : Manifold :=
  fold_left
    (fun result i =>
       let angle := (of_nat i * 2 * JS.Math_PI) / of_nat stripCount in
       let stripRadius := (outerRadius + innerRadius) / 2 in
       let stripBox :=
         rotate (translate (cylinder (height * 1.1) (stripWidth / 2))
                           (stripRadius, 0, 0))
                (0, 0, (angle * 180) / JS.Math_PI) in
       subtract result stripBox)
    (indices stripCount)
    (cylinder height outerRadius).

(** [createVoronoiPattern(outerRadius, innerRadius, height, cellCount)]:
    seed [i] takes draws [2i] and [2i+1], hole [j] takes draw
    [2 * cellCount + j]. *)
Definition createVoronoiPattern (outerRadius innerRadius height : Q)
    (cellCount : nat) : Manifold :=
  let seedPoints :=
    map (fun i =>
           let angle := Math_random (2 * i)%nat * 2 * JS.Math_PI in
           let radius :=
             innerRadius
             + Math_random (2 * i + 1)%nat * (outerRadius - innerRadius) in
           (radius * Math_cos angle, radius * Math_sin angle))
        (indices cellCount) in
  fst (fold_left
         (fun (acc : Manifold * nat) (point : Vec2) =>
            let (result, j) := acc in
            let holeRadius :=
              0.8 + Math_random (2 * cellCount + j)%nat * 1.2 in
            let hole :=
              translate (cylinder (height * 1.1) holeRadius)
                        (fst point, snd point, 0) in
            (subtract result hole, S j))
         seedPoints
         (cylinder height outerRadius, O)).

(** [createLowPolyPattern(outerRadius, height, facets)] *)
Definition createLowPolyPattern (outerRadius height : Q) (facets : nat)
    : Manifold :=
  let vertices :=
    map (fun i =>
           let angle := (of_nat i * 2 * JS.Math_PI) / of_nat facets in
           let radiusVariation := 0.9 + Math_random i * 0.2 in
           let radius := outerRadius * radiusVariation in
           (radius * Math_cos angle, radius * Math_sin angle))
        (indices facets) in
  extrude (NewCrossSection vertices) height.

Inductive SidePattern : Type := normal | strip | voronoi | lowpoly.

(** [hollowCylinder(height, outerRadius, wallThickness, closedBottom,
    sidePattern)].  The pattern builders are called with their default
    counts and widths, as the source does. *)
Definition hollowCylinder (height outerRadius wallThickness : Q)
    (closedBottom : bool) (sidePattern : SidePattern) : Manifold :=
  let innerRadius := JS.Math_max 0 (outerRadius - wallThickness) in
  let outer :=
    match sidePattern with
    | strip => createStripPattern outerRadius innerRadius height 8 0.3
    | voronoi => createVoronoiPattern outerRadius innerRadius height 20
    | lowpoly => createLowPolyPattern outerRadius height 12
    | normal => extrude (circle outerRadius) height
    end in
  let innerHeight := if closedBottom then height - wallThickness else height in
  let innerStartZ := if closedBottom then wallThickness else 0 in
  let inner :=
    translate (extrude (circle innerRadius) innerHeight) (0, 0, innerStartZ) in
  subtract outer inner.

End Manifold_ts.

End Model.

(** ** [main.ts] *)

Module Main.
Import Kernel.

(** *** Constants *)

Definition START_HEIGHT : Q := 50.
Definition MIN_HEIGHT : Q := 10.
Definition MAX_HEIGHT : Q := 200.

Definition START_OUTER_RADIUS : Q := 25.
Definition MIN_OUTER_RADIUS : Q := 5.
Definition MAX_OUTER_RADIUS : Q := 100.

Definition START_WALL_THICKNESS : Q := 3.
Definition MIN_WALL_THICKNESS : Q := 1.
Definition MAX_WALL_THICKNESS : Q := 20.

Definition START_CLOSED_BOTTOM : bool := true.

Definition MESH_ROTATION_DELTA : Q := 0.1.

(** *** State: the target dimensions *)

Record ModelDimensions : Type := {
  height : Q;
  outerRadius : Q;
  wallThickness : Q;
  closedBottom : bool
}.

Definition modelDimensions : ModelDimensions :=
  {| height := START_HEIGHT;
     outerRadius := START_OUTER_RADIUS;
     wallThickness := START_WALL_THICKNESS;
     closedBottom := START_CLOSED_BOTTOM |}.

(** *** State: part positioning *)

(** [position: -1 | 0 | 1] *)
Inductive StaticPosition : Type := PosNeg1 | Pos0 | Pos1.

Definition position_value (p : StaticPosition) : Z :=
  match p with PosNeg1 => (-1)%Z | Pos0 => 0%Z | Pos1 => 1%Z end.

(** [THREE.Clock], read in seconds: [start()] records the reading at
    that instant and [getElapsedTime()] returns the time since then. *)
Record Clock : Type := { startTime : Q }.

Definition getElapsedTime (clock : Clock) (now : Q) : Q := now - startTime clock.

(** [PartPosition]; a [lastStatic] is a value of the ["static"] variant
    and is kept as its [position]. *)
Inductive PartPosition : Type :=
| Static (position : StaticPosition)
| WillMove (startRot : Q) (startPos : Q * Q) (clock : Clock)
           (lastStatic : StaticPosition)
| Moving (startRot : Q) (startPos : Q * Q) (lastStatic : StaticPosition)
         (clock : Clock) (x : Q).

(** A call [rotation.startAnimationTo(target)] or
    [rotation.startAnimationTo(target, immediate)]. *)
Inductive AnimateCall : Type :=
| startAnimationTo (target : Q) (immediate : bool).

(** *** The download name *)

(** The listener on the sequence of the four target dimensions: the
    file name handed to [tmfLoader.load]. *)
Definition filename (dims : ModelDimensions) : string :=
  let h := height dims in
  let r := outerRadius dims in
  let w := wallThickness dims in
  let bottomType := if closedBottom dims then "closed"%string else "open"%string in
  ("cylinder-" ++ JS.toFixed0 (r * 2) ++ "x" ++ JS.toFixed0 h
     ++ "-wall" ++ JS.toFixed0 w ++ "-" ++ bottomType ++ ".3mf")%string.

(** *** Rotation *)

(** [bound(v, [lo, hi])] *)
Definition bound (v : Q) (range : Q * Q) : Q :=
  let (lo, hi) := range in
  JS.rem (v - lo) (hi - lo) + lo.

(** The listener on [partPositioning]; [canvasWidth] is
    [renderer.canvasWidth] at the time of the call.  The result is the
    call made on the rotation animator, if any.  The embedding is meant
    for a positive [canvasWidth]: at width 0 the source divides by zero
    and pushes a not-a-number, which the rationals do not have. *)
Definition partPositioning_listener (canvasWidth : Q) (val : PartPosition)
    : option AnimateCall :=
  match val with
  | Static position =>
      Some (startAnimationTo (inject_Z (position_value position)) false)
  | Moving startRot startPos _ _ x =>
      let dwdx := 2 / canvasWidth in
      let v := (x - fst startPos) * dwdx - startRot in
      Some (startAnimationTo (bound v (-1, 1)) true)
  | WillMove _ _ _ _ => None
  end.

(** *** Dimension inputs *)

(** The [change]/[input] handlers: [value] is [parseInt(input.value)]. *)
Definition height_input (value : JS.parsed) (dims : ModelDimensions)
    : ModelDimensions :=
  match value with
  | None => dims
  | Some value =>
      {| height := JS.Math_max MIN_HEIGHT
                     (JS.Math_min (inject_Z value) MAX_HEIGHT);
         outerRadius := outerRadius dims;
         wallThickness := wallThickness dims;
         closedBottom := closedBottom dims |}
  end.

Definition outerRadius_input (value : JS.parsed) (dims : ModelDimensions)
    : ModelDimensions :=
  match value with
  | None => dims
  | Some value =>
      {| height := height dims;
         outerRadius := JS.Math_max MIN_OUTER_RADIUS
                          (JS.Math_min (inject_Z value) MAX_OUTER_RADIUS);
         wallThickness := wallThickness dims;
         closedBottom := closedBottom dims |}
  end.

Definition wallThickness_input (value : JS.parsed) (dims : ModelDimensions)
    : ModelDimensions :=
  match value with
  | None => dims
  | Some value =>
      {| height := height dims;
         outerRadius := outerRadius dims;
         wallThickness := JS.Math_max MIN_WALL_THICKNESS
                            (JS.Math_min (inject_Z value) MAX_WALL_THICKNESS);
         closedBottom := closedBottom dims |}
  end.

Definition closedBottom_input (checked : bool) (dims : ModelDimensions)
    : ModelDimensions :=
  {| height := height dims;
     outerRadius := outerRadius dims;
     wallThickness := wallThickness dims;
     closedBottom := checked |}.

(** *** Pointer events *)

Inductive EventTarget : Type :=
| NoTarget
| NotAnElement
| Element (rect_x rect_y : Q).

Inductive PointerEvent : Type :=
| MouseEvent (offsetX offsetY : Q)
| TouchEvent (target : EventTarget) (clientX clientY : Q).

(** [eventCoords(e)] *)
Definition eventCoords (e : PointerEvent) : Q * Q :=
  match e with
  | MouseEvent offsetX offsetY => (offsetX, offsetY)
  | TouchEvent NoTarget _ _ => (0, 0)
  | TouchEvent NotAnElement _ _ => (0, 0)
  | TouchEvent (Element rect_x rect_y) clientX clientY =>
      (clientX - rect_x, clientY - rect_y)
  end.

(** The gesture state: the value of [partPositioning], and whether the
    move and release listeners are attached to the window. *)
Record Gesture : Type := {
  partPositioning : PartPosition;
  tracking : bool
}.

Definition Pixel : Type := Z * Z * Z * Z.

(** [readyMouse(e)]: [pixel] is what
    [renderer.getCanvasPixelColor] returns at the event's coordinates,
    [rotation_current] is [rotation.current], [now] is the reading of
    the clock that is started. *)
Definition readyMouse (e : PointerEvent) (pixel : Pixel)
    (rotation_current now : Q) (g : Gesture) : Gesture :=
  let '(x, y) := eventCoords e in
  let '(r, gr, b, a) := pixel in
  if ((r =? 0) && (gr =? 0) && (b =? 0) && (a =? 0))%Z then g
  else
    {| partPositioning :=
         match partPositioning g with
         | WillMove _ _ _ _ as val => val
         | Moving _ _ _ _ _ as val => val
         | Static val =>
             let clock := {| startTime := now |} in
             WillMove rotation_current (x, y) clock val
         end;
       tracking := true |}.

(** [trackMouse(e)] *)
Definition trackMouse (e : PointerEvent) (g : Gesture) : Gesture :=
  let x := fst (eventCoords e) in
  {| partPositioning :=
       match partPositioning g with
       | WillMove startRot startPos clock lastStatic =>
           Moving startRot startPos lastStatic clock x
       | Moving startRot startPos lastStatic clock _ =>
           Moving startRot startPos lastStatic clock x
       | Static _ as val => val
       end;
     tracking := tracking g |}.

(** [toggle] inside [forgetMouse] *)
Definition toggle (p : StaticPosition) : StaticPosition :=
  match p with
  | PosNeg1 => Pos0
  | Pos0 => Pos1
  | Pos1 => Pos0
  end.

(** [forgetMouse()]: [now] is the reading of the gesture's clock at the
    release, [rotation_current] is [rotation.current]. *)
Definition forgetMouse (now rotation_current : Q) (g : Gesture) : Gesture :=
  {| partPositioning :=
       match partPositioning g with
       | WillMove _ _ _ lastStatic => Static (toggle lastStatic)
       | Static was => Static (toggle was)
       | Moving _ startPos lastStatic clock x =>
           let elapsed := getElapsedTime clock now in
           let delta := JS.Math_abs (x - fst startPos) in
           if JS.Qlt_bool elapsed 0.3 && JS.Qlt_bool delta 15 then
             Static (toggle lastStatic)
           else
             let rounded := JS.Math_round (bound rotation_current (-1, 1)) in
             if (rounded <=? -1)%Z then Static PosNeg1
             else if (1 <=? rounded)%Z then Static Pos1
             else Static Pos0
       end;
     tracking := false |}.

(** A whole gesture: press, a run of moves, release. *)
Definition gesture (down : PointerEvent) (pixel : Pixel) (rot_down t_down : Q)
    (moves : list PointerEvent) (t_up rot_up : Q) (g : Gesture) : Gesture :=
  forgetMouse t_up rot_up
    (fold_left (fun g e => trackMouse e g) moves
       (readyMouse down pixel rot_down t_down g)).

(** *** The scene and the frame loop *)

(** A geometry held by [mesh]: the initial [THREE.CylinderGeometry], or
    the conversion of a kernel model (normals computed). *)
Inductive BufferGeometry : Type :=
| CylinderGeometry (radiusTop radiusBottom height : Q) (radialSegments : Z)
| mesh2geometry (model : Manifold).

(** One call [reloadModel(height, outerRadius, wallThickness,
    closedBottom)] whose promise is not settled yet.  [call_id] and
    [call_started] are bookkeeping of the model: the rank of the call
    among the calls made by the loop, and the frame time at which it was
    made. *)
Record Call : Type := {
  call_id : nat;
  call_started : Q;
  call_height : Q;
  call_outerRadius : Q;
  call_wallThickness : Q;
  call_closedBottom : bool
}.

(** The module-level variables the loop reads and writes, the parts of
    [mesh] and [link] it assigns, whether an animation frame is
    requested, and the calls in flight.  [callsStarted], [centered] and
    [rendered] count the calls of [reloadModel], [centerCamera] and
    [renderer.render] made by the loop. *)
Record LoopState : Type := {
  reloadModelNeeded : bool;
  modelLoadStarted : option Q;
  centerCameraNeeded : bool;
  mesh_geometry : BufferGeometry;
  mesh_rotation_z : Q;
  link_download : option string;
  frameRequested : bool;
  inFlight : list Call;
  callsStarted : nat;
  centered : nat;
  rendered : nat
}.

(** The state when the script reaches [loop(performance.now())]; that
    first call stands as a requested frame. *)
Definition initial : LoopState :=
  {| reloadModelNeeded := true;
     modelLoadStarted := None;
     centerCameraNeeded := true;
     mesh_geometry :=
       CylinderGeometry (outerRadius modelDimensions)
                        (outerRadius modelDimensions)
                        (height modelDimensions) 32;
     mesh_rotation_z := MESH_ROTATION_DELTA;
     link_download := None;
     frameRequested := true;
     inFlight := [];
     callsStarted := O;
     centered := O;
     rendered := O |}.

(** What one frame reads from its collaborators: the file taken from
    the loader (its name), the results of the [update()] calls and the
    [current] values of the animators, the latest closed-bottom flag,
    and whether the canvas was resized. *)
Record FrameInput : Type := {
  newTmf : option string;
  rotationUpdated : bool;
  rotation_current : Q;
  heightUpdated : bool;
  outerRadiusUpdated : bool;
  wallThicknessUpdated : bool;
  height_current : Q;
  outerRadius_current : Q;
  wallThickness_current : Q;
  closedBottom_latest : bool;
  canvasResized : bool
}.

(** [dimensionsUpdated]: the [reduce] over the three numeric animators. *)
Definition dimensionsUpdated (inp : FrameInput) : bool :=
  fold_left (fun acc updated => updated || acc)
    [heightUpdated inp; outerRadiusUpdated inp; wallThicknessUpdated inp]
    false.

(** [reloadModelNow] *)
Definition reloadModelNow (nowMillis : Q) (needed : bool)
    (started : option Q) : bool :=
  needed &&
  match started with
  | None => true
  | Some started => JS.Qlt_bool 100 (nowMillis - started)
  end.

(** [loop(nowMillis)] *)
Definition loop (nowMillis : Q) (inp : FrameInput) (s : LoopState) : LoopState :=
  let link' :=
    match newTmf inp with
    | Some name => Some name
    | None => link_download s
    end in
  let rotation_z' :=
    if rotationUpdated inp
    then rotation_current inp * JS.Math_PI + MESH_ROTATION_DELTA
    else mesh_rotation_z s in
  let needed := if dimensionsUpdated inp then true else reloadModelNeeded s in
  let now_ := reloadModelNow nowMillis needed (modelLoadStarted s) in
  let call :=
    {| call_id := callsStarted s;
       call_started := nowMillis;
       call_height := height_current inp;
       call_outerRadius := outerRadius_current inp;
       call_wallThickness := wallThickness_current inp;
       call_closedBottom := closedBottom_latest inp |} in
  let center := if canvasResized inp then true else centerCameraNeeded s in
  {| reloadModelNeeded := if now_ then false else needed;
     modelLoadStarted := if now_ then Some nowMillis else modelLoadStarted s;
     centerCameraNeeded := if center then false else center;
     mesh_geometry := mesh_geometry s;
     mesh_rotation_z := rotation_z';
     link_download := link';
     frameRequested := true;
     inFlight := if now_ then call :: inFlight s else inFlight s;
     callsStarted := if now_ then S (callsStarted s) else callsStarted s;
     centered := if center then S (centered s) else centered s;
     rendered := S (rendered s) |}.

(** How the kernel call awaited by [reloadModel] ends. *)
Inductive Settlement : Type :=
| Fulfilled (model : Manifold)
| Rejected.

(** The rest of [reloadModel] after its [await], followed by the
    [then] callback registered by the loop.  A rejection abandons the
    body of [reloadModel] at the [await] and rejects its promise; the
    loop registers no rejection handler. *)
Definition settle (c : Call) (o : Settlement) (s : LoopState) : LoopState :=
  let rest := filter (fun c' => negb (call_id c' =? call_id c)%nat) (inFlight s) in
  match o with
  | Fulfilled model =>
      {| reloadModelNeeded := reloadModelNeeded s;
         modelLoadStarted := None;
         centerCameraNeeded := true;
         mesh_geometry := mesh2geometry model;
         mesh_rotation_z := mesh_rotation_z s;
         link_download := link_download s;
         frameRequested := frameRequested s;
         inFlight := rest;
         callsStarted := callsStarted s;
         centered := centered s;
         rendered := rendered s |}
  | Rejected =>
      {| reloadModelNeeded := reloadModelNeeded s;
         modelLoadStarted := modelLoadStarted s;
         centerCameraNeeded := centerCameraNeeded s;
         mesh_geometry := mesh_geometry s;
         mesh_rotation_z := mesh_rotation_z s;
         link_download := link_download s;
         frameRequested := frameRequested s;
         inFlight := rest;
         callsStarted := callsStarted s;
         centered := centered s;
         rendered := rendered s |}
  end.

(** *** The step relation of the page: frames and settlements *)

Inductive Event : Type :=
| Frame (nowMillis : Q) (inp : FrameInput)
| Settle (id : nat) (o : Settlement).

(** A frame fires only when one is requested; a settlement concerns a
    call in flight. *)
Definition step (s : LoopState) (e : Event) : option LoopState :=
  match e with
  | Frame nowMillis inp =>
      if frameRequested s then Some (loop nowMillis inp s) else None
  | Settle id o =>
      match find (fun c => (call_id c =? id)%nat) (inFlight s) with
      | Some c => Some (settle c o s)
      | None => None
      end
  end.

Fixpoint run (s : LoopState) (es : list Event) : option LoopState :=
  match es with
  | [] => Some s
  | e :: es' =>
      match step s e with
      | Some s' => run s' es'
      | None => None
      end
  end.

Definition reachable (s : LoopState) : Prop :=
  exists es, run initial es = Some s.

(** A frame is timely unless it has a reload pending (the flag is set
    or a numeric dimension was updated in it) while some call in flight
    was started more than 100 ms before it: those are the frames at
    which the stuck-load escape of [reloadModelNow] acts on a call that
    is still unresolved. *)
Definition timely (s : LoopState) (e : Event) : bool :=
  match e with
  | Frame nowMillis inp =>
      negb ((if dimensionsUpdated inp then true else reloadModelNeeded s)
            && existsb (fun c => JS.Qlt_bool 100 (nowMillis - call_started c))
                       (inFlight s))
  | Settle _ _ => true
  end.

Fixpoint timely_run (s : LoopState) (es : list Event) : option LoopState :=
  match es with
  | [] => Some s
  | e :: es' =>
      if timely s e then
        match step s e with
        | Some s' => timely_run s' es'
        | None => None
        end
      else None
  end.

(** A run of frames. *)
Definition frames (fs : list (Q * FrameInput)) (s : LoopState) : LoopState :=
  fold_left (fun s f => loop (fst f) (snd f) s) fs s.

End Main.

(** ** Predicates used in the statements *)

Module Statements.
Import Main.

(** The sampled pixel is not the transparent black that [readyMouse]
    takes for the background. *)
Definition is_hit (pixel : Pixel) : Prop := pixel <> (0, 0, 0, 0)%Z.

(** The decimal numeral of an integer. *)
Definition decimal (n : Z) : string := NilZero.string_of_int (Z.to_int n).

(** [n] is an integer nearest to [x]. *)
Definition nearest_integer (x : Q) (n : Z) : Prop :=
  Qabs (x - inject_Z n) <= 1 # 2.

(** The range on which [JS.toFixed0] is the built-in. *)
Definition printable (x : Q) : Prop :=
  0 <= x /\ x < 1000000000000000000000.

(** The ranges the dimension inputs clamp to. *)
Definition in_range (dims : ModelDimensions) : Prop :=
  (MIN_HEIGHT <= height dims /\ height dims <= MAX_HEIGHT) /\
  (MIN_OUTER_RADIUS <= outerRadius dims /\ outerRadius dims <= MAX_OUTER_RADIUS) /\
  (MIN_WALL_THICKNESS <= wallThickness dims
   /\ wallThickness dims <= MAX_WALL_THICKNESS).

(** A release counts as a tap when it comes less than 0.3 s after the
    press and the last reported pointer position is less than 15 px
    away, horizontally, from the press. *)
Definition quick_and_short (down : PointerEvent) (t_down : Q)
    (moves : list PointerEvent) (t_up : Q) : Prop :=
  t_up - t_down < 0.3 /\
  Qabs (fst (eventCoords (last moves down)) - fst (eventCoords down)) < 15.

(** A frame seen by the loop while call [c] is in flight and not yet
    taken for stuck. *)
Definition within_timeout (c : Call) (f : Q * FrameInput) : Prop :=
  fst f - call_started c <= 100.

(** A frame in which some numeric dimension is still animating. *)
Definition changes (f : Q * FrameInput) : bool := dimensionsUpdated (snd f).

(** At most one call is in flight, and the load marker is its start. *)
Definition single_flight (s : LoopState) : Prop :=
  inFlight s = [] \/
  exists c, inFlight s = [c] /\ modelLoadStarted s = Some (call_started c).

(** Sample frames: the animators at rest on the given dimensions, and
    the height animator still moving. *)
Definition at_rest (h r w : Q) (closed : bool) : FrameInput :=
  {| newTmf := None;
     rotationUpdated := false;
     rotation_current := 0;
     heightUpdated := false;
     outerRadiusUpdated := false;
     wallThicknessUpdated := false;
     height_current := h;
     outerRadius_current := r;
     wallThickness_current := w;
     closedBottom_latest := closed;
     canvasResized := false |}.

Definition height_moving (h r w : Q) (closed : bool) : FrameInput :=
  {| newTmf := None;
     rotationUpdated := false;
     rotation_current := 0;
     heightUpdated := true;
     outerRadiusUpdated := false;
     wallThicknessUpdated := false;
     height_current := h;
     outerRadius_current := r;
     wallThickness_current := w;
     closedBottom_latest := closed;
     canvasResized := false |}.

End Statements.

(** ** Streams of page events

    The handlers above are attached to DOM events.  The dimension
    handlers are attached for good; [readyMouse] is attached to the
    canvas for good; [trackMouse] and [forgetMouse] are attached to the
    window by [readyMouse] and detached by [forgetMouse], so they run
    only while [tracking] holds. *)

Module Page.
Import Main.

Inductive InputEvent : Type :=
| HeightInput (value : JS.parsed)
| OuterRadiusInput (value : JS.parsed)
| WallThicknessInput (value : JS.parsed)
| ClosedBottomInput (checked : bool).

Definition input (dims : ModelDimensions) (e : InputEvent) : ModelDimensions :=
  match e with
  | HeightInput value => height_input value dims
  | OuterRadiusInput value => outerRadius_input value dims
  | WallThicknessInput value => wallThickness_input value dims
  | ClosedBottomInput checked => closedBottom_input checked dims
  end.

Definition inputs (es : list InputEvent) (dims : ModelDimensions)
    : ModelDimensions :=
  fold_left input es dims.

Inductive GestureEvent : Type :=
| PointerDown (e : PointerEvent) (pixel : Pixel) (rotation_current now : Q)
| PointerMove (e : PointerEvent)
| PointerUp (now rotation_current : Q).

Definition dispatch (g : Gesture) (ev : GestureEvent) : Gesture :=
  match ev with
  | PointerDown e pixel rotation_current now =>
      readyMouse e pixel rotation_current now g
  | PointerMove e => if tracking g then trackMouse e g else g
  | PointerUp now rotation_current =>
      if tracking g then forgetMouse now rotation_current g else g
  end.

Definition dispatch_all (evs : list GestureEvent) (g : Gesture) : Gesture :=
  fold_left dispatch evs g.

(** The gesture state when the script has run: [partPositioning] holds
    its initial value and nothing is attached to the window. *)
Definition page_load : Gesture :=
  {| partPositioning := Static Pos0; tracking := false |}.

(** The data of one press-moves-release gesture. *)
Record Press : Type := {
  press_down : PointerEvent;
  press_pixel : Pixel;
  press_rotation : Q;
  press_time : Q;
  press_moves : list PointerEvent;
  release_time : Q;
  release_rotation : Q
}.

Definition perform (g : Gesture) (t : Press) : Gesture :=
  gesture (press_down t) (press_pixel t) (press_rotation t) (press_time t)
    (press_moves t) (release_time t) (release_rotation t) g.

End Page.

(** ** Reading a kernel term *)

Module Shape.
Import Kernel.

(** The solids subtracted from a term, last subtracted first, and the
    solid they are subtracted from. *)
Fixpoint cuts (m : Manifold) : list Manifold :=
  match m with
  | subtract a b => b :: cuts a
  | _ => []
  end.

Fixpoint stock (m : Manifold) : Manifold :=
  match m with
  | subtract a _ => stock a
  | _ => m
  end.

End Shape.

(** ** [model/manifold.ts]: the module loader, and the three-argument
    [hollowCylinder] of the earlier copy of the file *)

Module Model0.
Import Kernel.

Section Manifold_ts.

Variables Math_cos Math_sin : Q -> Q.

(** [hollowCylinder(height, outerRadius, wallThickness)] *)
Definition hollowCylinder (height outerRadius wallThickness : Q) : Manifold :=
  let innerRadius := JS.Math_max 0 (outerRadius - wallThickness) in
  let outer := extrude (Model.circle Math_cos Math_sin outerRadius) height in
  let inner := extrude (Model.circle Math_cos Math_sin innerRadius) height in
  subtract outer inner.

End Manifold_ts.

End Model0.

Module Loader.

(** A call of [ManifoldModule.get()] that has been made: suspended at
    [await init(...)], suspended at [await this.wasm.setup()], or
    returned with a module.  Modules are told apart by a number. *)
Inductive GetCall : Type :=
| AwaitingInit
| AwaitingSetup
| Returned (module_ : nat).

(** The static field [wasm], the calls of [get] made so far, and the
    number of calls of [init] and of [setup]. *)
Record ManifoldModule : Type := {
  wasm : option nat;
  calls : list GetCall;
  inits : nat;
  setups : nat
}.

Definition unloaded : ManifoldModule :=
  {| wasm := None; calls := []; inits := O; setups := O |}.

Definition set_call (k : nat) (c : GetCall) (l : list GetCall) : list GetCall :=
  firstn k l ++ c :: skipn (S k) l.

Inductive LoaderEvent : Type :=
| Get
| InitResolved (k : nat) (module_ : nat)
| SetupResolved (k : nat).

(** [Get]: the synchronous part of [get()], up to its first [await] or
    its [return].  [InitResolved k m]: call [k] resumes from
    [await init(...)] with module [m], assigns [this.wasm] and calls
    [setup].  [SetupResolved k]: call [k] resumes and returns
    [this.wasm]. *)
Definition step (s : ManifoldModule) (e : LoaderEvent) : option ManifoldModule :=
  match e with
  | Get =>
      match wasm s with
      | Some m =>
          Some {| wasm := wasm s; calls := calls s ++ [Returned m];
                  inits := inits s; setups := setups s |}
      | None =>
          Some {| wasm := wasm s; calls := calls s ++ [AwaitingInit];
                  inits := S (inits s); setups := setups s |}
      end
  | InitResolved k m =>
      match nth_error (calls s) k with
      | Some AwaitingInit =>
          Some {| wasm := Some m; calls := set_call k AwaitingSetup (calls s);
                  inits := inits s; setups := S (setups s) |}
      | _ => None
      end
  | SetupResolved k =>
      match nth_error (calls s) k, wasm s with
      | Some AwaitingSetup, Some m =>
          Some {| wasm := wasm s; calls := set_call k (Returned m) (calls s);
                  inits := inits s; setups := setups s |}
      | _, _ => None
      end
  end.

Fixpoint run (s : ManifoldModule) (es : list LoaderEvent)
    : option ManifoldModule :=
  match es with
  | [] => Some s
  | e :: es' =>
      match step s e with
      | Some s' => run s' es'
      | None => None
      end
  end.

End Loader.

(** ** More predicates used in the statements *)

Module Statements2.
Import Main Page.

(** A press that lands on the part and is released soon and near. *)
Definition is_tap (t : Press) : Prop :=
  Statements.is_hit (press_pixel t) /\
  release_time t - press_time t < 0.3 /\
  Qabs (fst (eventCoords (last (press_moves t) (press_down t)))
        - fst (eventCoords (press_down t))) < 15.

Definition is_release (ev : GestureEvent) : bool :=
  match ev with PointerUp _ _ => true | _ => false end.

Definition is_static (p : PartPosition) : bool :=
  match p with Static _ => true | _ => false end.

(** A settlement that is not a success. *)
Definition no_fulfilment (e : Event) : bool :=
  match e with
  | Settle _ (Fulfilled _) => false
  | _ => true
  end.

(** The first call was started more than 100 ms after the second. *)
Definition far_after (c1 c2 : Call) : Prop :=
  100 < call_started c1 - call_started c2.

(** A value [Math.random] may return. *)
Definition unit_interval (x : Q) : Prop := 0 <= x /\ x < 1.

End Statements2.

(* ================================================================= *)
(** * Part II.  Properties                                            *)
(* ================================================================= *)

Import Kernel Main Statements.
Import Page Statements2.

(** ** Arithmetic of the built-ins *)

Section Numbers.
Import JS.

Lemma Qlt_bool_true (a b : Q) : Qlt_bool a b = true <-> a < b.
Proof.
  unfold Qlt_bool. rewrite negb_true_iff.
  split; intro H.
  - apply Qnot_le_lt. intro Hle. apply Qle_bool_iff in Hle. congruence.
  - destruct (Qle_bool b a) eqn:E; [|reflexivity].
    apply Qle_bool_iff in E. lra.
Qed.

Lemma Qlt_bool_false (a b : Q) : Qlt_bool a b = false <-> b <= a.
Proof.
  unfold Qlt_bool. rewrite negb_false_iff. apply Qle_bool_iff.
Qed.

Lemma below_floor_succ (x : Q) : x < inject_Z (Qfloor x) + 1.
Proof.
  pose proof (Qlt_floor x) as H.
  rewrite inject_Z_plus in H. exact H.
Qed.

Lemma above_ceiling_pred (x : Q) : inject_Z (Qceiling x) - 1 < x.
Proof.
  pose proof (Qceiling_lt x) as H.
  replace (Qceiling x - 1)%Z with (Qceiling x + -1)%Z in H by lia.
  rewrite inject_Z_plus in H. exact H.
Qed.

(** [Math_trunc] rounds toward zero. *)
Lemma Math_trunc_nonneg (q : Q) :
  0 <= q ->
  inject_Z (Math_trunc q) <= q /\ q < inject_Z (Math_trunc q) + 1.
Proof.
  intro H. unfold Math_trunc.
  apply Qle_bool_iff in H. rewrite H.
  split; [apply Qfloor_le | apply below_floor_succ].
Qed.

Lemma Math_trunc_neg (q : Q) :
  q < 0 ->
  inject_Z (Math_trunc q) - 1 < q /\ q <= inject_Z (Math_trunc q).
Proof.
  intro H. unfold Math_trunc.
  destruct (Qle_bool 0 q) eqn:B.
  - apply Qle_bool_iff in B. lra.
  - split; [apply above_ceiling_pred | apply Qle_ceiling].
Qed.

End Numbers.

(** ** The wrap [bound(v, [-1, 1])] *)

Section Bound.

Lemma half_of_shifted (v : Q) : (v - -1) / (1 - -1) == (v + 1) * (1 # 2).
Proof. field. Qed.

(** [bound] subtracts an even integer; which one depends on the side of
    [-1] the argument lies on, because [%] truncates toward zero. *)
Lemma bound_cases (v : Q) :
  exists k : Z,
    bound v (-1, 1) == v - 2 * inject_Z k /\
    ((-1 <= v /\ -1 <= bound v (-1, 1) /\ bound v (-1, 1) < 1) \/
     (v < -1 /\ -3 < bound v (-1, 1) /\ bound v (-1, 1) <= -1)).
Proof.
  pose proof (half_of_shifted v) as Hh.
  unfold bound, JS.rem.
  set (q := (v - -1) / (1 - -1)) in *.
  exists (JS.Math_trunc q).
  assert (v - -1 - (1 - -1) * inject_Z (JS.Math_trunc q) + -1
          == v - 2 * inject_Z (JS.Math_trunc q)) as E by ring.
  split; [exact E|].
  destruct (Qlt_le_dec v (-1)) as [Hv | Hv].
  - right.
    destruct (Math_trunc_neg q) as [H1 H2]; [lra|].
    rewrite E. lra.
  - left.
    destruct (Math_trunc_nonneg q) as [H1 H2]; [lra|].
    rewrite E. lra.
Qed.

Lemma bound_in_range_from_minus_one (v : Q) :
  -1 <= v -> -1 <= bound v (-1, 1) /\ bound v (-1, 1) < 1.
Proof.
  intro Hv. destruct (bound_cases v) as [k [_ [H | H]]]; lra.
Qed.

Lemma bound_below_minus_one (v : Q) :
  v < -1 -> -3 < bound v (-1, 1) /\ bound v (-1, 1) <= -1.
Proof.
  intro Hv. destruct (bound_cases v) as [k [_ [H | H]]]; lra.
Qed.

(** An even integer strictly between -2 and 4. *)
Lemma even_gap (k0 k1 : Z) (d : Q) :
  d == 2 + 2 * inject_Z k0 - 2 * inject_Z k1 ->
  -2 < d -> d < 4 -> d == 0 \/ d == 2.
Proof.
  intros E Hlo Hhi.
  assert (inject_Z k1 < inject_Z (k0 + 2)) as A
      by (rewrite inject_Z_plus; change (inject_Z 2) with 2; lra).
  assert (inject_Z (k0 + -1) < inject_Z k1) as B
      by (rewrite inject_Z_plus; change (inject_Z (-1)) with (-1); lra).
  rewrite <- Zlt_Qlt in A, B.
  assert (k1 = k0 \/ k1 = (k0 + 1)%Z) as [-> | ->] by lia.
  - right. lra.
  - left. rewrite inject_Z_plus in E. change (inject_Z 1) with 1 in E. lra.
Qed.

(** Adding the whole span [hi - lo = 2] to the argument moves the
    wrapped value by nothing, or by 2 when the argument crosses [-1]. *)
Lemma bound_add_span (v0 v1 : Q) :
  v1 == v0 + 2 ->
  bound v1 (-1, 1) - bound v0 (-1, 1) == 0 \/
  bound v1 (-1, 1) - bound v0 (-1, 1) == 2.
Proof.
  intro Hv.
  destruct (bound_cases v0) as [k0 [E0 C0]].
  destruct (bound_cases v1) as [k1 [E1 C1]].
  apply (even_gap k0 k1).
  - rewrite E0, E1, Hv. ring.
  - destruct C0 as [C0 | C0], C1 as [C1 | C1]; lra.
  - destruct C0 as [C0 | C0], C1 as [C1 | C1]; lra.
Qed.

End Bound.

(** ** The live rotation target of a drag *)

Section Drag.

(** What the listener pushes for a [Moving] value. *)
Lemma listener_moving (canvasWidth startRot : Q) (startPos : Q * Q)
    (lastStatic : StaticPosition) (clock : Clock) (x : Q) :
  partPositioning_listener canvasWidth
    (Moving startRot startPos lastStatic clock x)
  = Some (startAnimationTo
            (bound ((x - fst startPos) * (2 / canvasWidth) - startRot) (-1, 1))
            true).
Proof. reflexivity. Qed.

(** C5.  The claim is that every live target pushed during a drag lies
    in [-1, 1].  It does not hold of the code: press on the part at the
    right edge of a 512 px canvas while the rotation rests at 0, drag to
    the left edge; the listener pushes the target -2.  The remainder of
    a negative dividend is negative, so below -1 the wrap lands in
    (-3, -1]. *)
Theorem drag_left_pushes_target_below_range :
  let press :=
    readyMouse (MouseEvent 512 100) (255, 255, 255, 255)%Z 0 0
      {| partPositioning := Static Pos0; tracking := false |} in
  let dragged := trackMouse (MouseEvent 0 100) press in
  exists t,
    partPositioning_listener 512 (partPositioning dragged)
      = Some (startAnimationTo t true) /\
    t == -2 /\ ~ (-1 <= t /\ t <= 1).
Proof.
  cbv zeta. eexists. split; [reflexivity|].
  split.
  - vm_compute. reflexivity.
  - intros [H _]. vm_compute in H. apply H. reflexivity.
Qed.

(** Above -1 a whole span added to the argument leaves the wrapped
    value where it was. *)
Lemma bound_add_span_in_range (v0 v1 : Q) :
  -1 <= v0 -> v1 == v0 + 2 ->
  bound v1 (-1, 1) - bound v0 (-1, 1) == 0.
Proof.
  intros Hv E.
  destruct (bound_add_span v0 v1 E) as [H | H]; [exact H|].
  destruct (bound_in_range_from_minus_one v0 Hv) as [L0 _].
  assert (-1 <= v1) as Hv1 by lra.
  destruct (bound_in_range_from_minus_one v1 Hv1) as [_ U1].
  exfalso. lra.
Qed.

(** C4, as amended.  With [v = (x - startX) * (2 / canvasWidth) -
    startRot] the value the listener wraps, on a canvas of positive
    width and for [v] at or above -1: moving the pointer by the full
    canvas width moves [v] by two units, not one (to within 1/2), and
    the pushed target comes back to where it was up to one whole wrap
    by 2 (to within 1/2); it is therefore never one unit away. *)
Theorem full_width_drag_spans_two_units
    (canvasWidth startRot : Q) (startPos : Q * Q)
    (lastStatic : StaticPosition) (clock : Clock) (x : Q) :
  0 < canvasWidth ->
  -1 <= (x - fst startPos) * (2 / canvasWidth) - startRot ->
  exists v0 v1 t0 t1,
    v0 = (x - fst startPos) * (2 / canvasWidth) - startRot /\
    v1 = (x + canvasWidth - fst startPos) * (2 / canvasWidth) - startRot /\
    t0 = bound v0 (-1, 1) /\ t1 = bound v1 (-1, 1) /\
    partPositioning_listener canvasWidth
      (Moving startRot startPos lastStatic clock x)
      = Some (startAnimationTo t0 true) /\
    partPositioning_listener canvasWidth
      (Moving startRot startPos lastStatic clock (x + canvasWidth))
      = Some (startAnimationTo t1 true) /\
    Qabs (v1 - v0 - 2) < 1 # 2 /\
    (exists k : Z,
        (-1 <= k <= 1)%Z /\ Qabs (t1 - t0 - 2 * inject_Z k) < 1 # 2) /\
    1 # 2 < Qabs (t1 - t0 - 1).
Proof.
  intros HW Hv.
  exists ((x - fst startPos) * (2 / canvasWidth) - startRot).
  exists ((x + canvasWidth - fst startPos) * (2 / canvasWidth) - startRot).
  do 2 eexists.
  split; [reflexivity|]. split; [reflexivity|].
  split; [reflexivity|]. split; [reflexivity|].
  split; [apply listener_moving|].
  split; [apply listener_moving|].
  assert ((x + canvasWidth - fst startPos) * (2 / canvasWidth) - startRot
          == (x - fst startPos) * (2 / canvasWidth) - startRot + 2) as E.
  { field. lra. }
  pose proof (bound_add_span_in_range _ _ Hv E) as Hd.
  set (v0 := (x - fst startPos) * (2 / canvasWidth) - startRot) in *.
  set (v1 := (x + canvasWidth - fst startPos) * (2 / canvasWidth) - startRot)
    in *.
  set (d := bound v1 (-1, 1) - bound v0 (-1, 1)) in *.
  split; [|split].
  - assert (v1 - v0 - 2 == 0) as Z0 by (rewrite E; ring).
    rewrite Z0. reflexivity.
  - exists 0%Z. split; [lia|].
    assert (d - 2 * inject_Z 0 == 0) as Z0
        by (rewrite Hd; change (inject_Z 0) with 0; ring).
    rewrite Z0. reflexivity.
  - assert (d - 1 == -1) as Z0 by (rewrite Hd; ring).
    rewrite Z0. reflexivity.
Qed.

Lemma full_width_drag_spans_two_units_witness :
  (0 < 300 /\ -1 <= (100 - fst (50, 100)) * (2 / 300) - 0) /\
  exists t0 t1,
    partPositioning_listener 300
      (Moving 0 (50, 100) Pos0 {| startTime := 0 |} 100)
      = Some (startAnimationTo t0 true) /\
    partPositioning_listener 300
      (Moving 0 (50, 100) Pos0 {| startTime := 0 |} (100 + 300))
      = Some (startAnimationTo t1 true) /\
    1 # 2 < Qabs (t1 - t0 - 1).
Proof.
  assert (0 < 300) as H1 by reflexivity.
  assert (-1 <= (100 - fst (50, 100)) * (2 / 300) - 0) as H2
      by (vm_compute; discriminate).
  split; [split; [exact H1 | exact H2]|].
  destruct (full_width_drag_spans_two_units 300 0 (50, 100) Pos0
              {| startTime := 0 |} 100 H1 H2)
    as [v0 [v1 [t0 [t1 [_ [_ [_ [_ [E0 [E1 [_ [_ Hne]]]]]]]]]]]].
  exists t0, t1. split; [exact E0|]. split; [exact E1 | exact Hne].
Defined.

(** C4, as stated, fails: on a 512 px canvas, with the press at x = 0
    and the rotation at rest, the targets pushed at x = 0 and at
    x = 512 are equal, so their difference is not 1 up to any number of
    wraps by 2. *)
Lemma full_width_drag_is_not_one_unit :
  exists t0 t1,
    partPositioning_listener 512
      (Moving 0 (0, 100) Pos0 {| startTime := 0 |} 0)
      = Some (startAnimationTo t0 true) /\
    partPositioning_listener 512
      (Moving 0 (0, 100) Pos0 {| startTime := 0 |} 512)
      = Some (startAnimationTo t1 true) /\
    forall k : Z, ~ t1 - t0 == 1 + 2 * inject_Z k.
Proof.
  eexists. eexists.
  split; [reflexivity|]. split; [reflexivity|].
  intros k H.
  assert (bound ((512 - fst (0, 100)) * (2 / 512) - 0) (-1, 1)
          - bound ((0 - fst (0, 100)) * (2 / 512) - 0) (-1, 1) == 0) as E
      by (vm_compute; reflexivity).
  rewrite E in H. clear E.
  assert (inject_Z (2 * k + 1) == inject_Z 0) as Hk.
  { rewrite inject_Z_plus, inject_Z_mult.
    change (inject_Z 2) with 2. change (inject_Z 1) with 1.
    change (inject_Z 0) with 0. lra. }
  rewrite inject_Z_injective in Hk. lia.
Qed.

End Drag.

(** ** The gesture machine *)

Section Gestures.

Lemma hit_test (r g b a : Z) :
  is_hit (r, g, b, a) ->
  ((r =? 0) && (g =? 0) && (b =? 0) && (a =? 0))%Z = false.
Proof.
  intro H.
  destruct (r =? 0)%Z eqn:Er; [|reflexivity].
  destruct (g =? 0)%Z eqn:Eg; [|reflexivity].
  destruct (b =? 0)%Z eqn:Eb; [|reflexivity].
  destruct (a =? 0)%Z eqn:Ea; [|reflexivity].
  apply Z.eqb_eq in Er, Eg, Eb, Ea. subst. exfalso. apply H. reflexivity.
Qed.

(** A press on the part while no interaction is in progress. *)
Lemma readyMouse_hit_static (e : PointerEvent) (pixel : Pixel)
    (rot now : Q) (p : StaticPosition) (tr : bool) :
  is_hit pixel ->
  readyMouse e pixel rot now {| partPositioning := Static p; tracking := tr |}
  = {| partPositioning := WillMove rot (eventCoords e) {| startTime := now |} p;
       tracking := true |}.
Proof.
  intro H. destruct pixel as [[[r g] b] a].
  unfold readyMouse. destruct (eventCoords e) as [x y].
  rewrite (hit_test _ _ _ _ H). reflexivity.
Qed.

(** The horizontal coordinate last reported by a run of moves. *)
Lemma last_move_x (moves : list PointerEvent) (d : PointerEvent) :
  fst (eventCoords (last moves d))
  = fold_left (fun _ e => fst (eventCoords e)) moves (fst (eventCoords d)).
Proof.
  revert d. induction moves as [|e moves IH]; intro d; [reflexivity|].
  destruct moves as [|e' moves'].
  - reflexivity.
  - change (last (e :: e' :: moves') d) with (last (e' :: moves') d).
    rewrite IH. cbn [fold_left]. reflexivity.
Qed.

Lemma moves_while_moving (moves : list PointerEvent) :
  forall startRot startPos lastStatic clock x tr,
    fold_left (fun g e => trackMouse e g) moves
      {| partPositioning := Moving startRot startPos lastStatic clock x;
         tracking := tr |}
    = {| partPositioning :=
           Moving startRot startPos lastStatic clock
             (fold_left (fun _ e => fst (eventCoords e)) moves x);
         tracking := tr |}.
Proof.
  induction moves as [|e moves IH]; intros; [reflexivity|].
  cbn [fold_left]. unfold trackMouse at 2. cbn [partPositioning tracking].
  apply IH.
Qed.

(** After a press, moves keep what the press recorded; only [x] follows
    the pointer. *)
Lemma moves_after_press (moves : list PointerEvent) (d : PointerEvent) :
  forall startRot startPos clock lastStatic tr,
    fold_left (fun g e => trackMouse e g) moves
      {| partPositioning := WillMove startRot startPos clock lastStatic;
         tracking := tr |}
    = {| partPositioning :=
           match moves with
           | [] => WillMove startRot startPos clock lastStatic
           | _ :: _ =>
               Moving startRot startPos lastStatic clock
                 (fst (eventCoords (last moves d)))
           end;
         tracking := tr |}.
Proof.
  intros. destruct moves as [|e moves]; [reflexivity|].
  cbn [fold_left]. unfold trackMouse at 2. cbn [partPositioning tracking].
  rewrite moves_while_moving.
  rewrite (last_move_x (e :: moves) d). reflexivity.
Qed.

(** Press on the part, any moves, release soon and near: the part ends
    at the toggle of where it rested. *)
Lemma tap_gesture (p : StaticPosition) (tr : bool) (down : PointerEvent)
    (pixel : Pixel) (rot_down t_down : Q) (moves : list PointerEvent)
    (t_up rot_up : Q) :
  is_hit pixel ->
  quick_and_short down t_down moves t_up ->
  gesture down pixel rot_down t_down moves t_up rot_up
    {| partPositioning := Static p; tracking := tr |}
  = {| partPositioning := Static (toggle p); tracking := false |}.
Proof.
  intros Hhit [Hquick Hshort]. unfold gesture.
  rewrite (readyMouse_hit_static _ _ _ _ _ _ Hhit).
  rewrite (moves_after_press moves down).
  destruct moves as [|e moves]; [reflexivity|].
  unfold forgetMouse. cbn [partPositioning].
  unfold getElapsedTime, JS.Math_abs. cbn [startTime].
  apply Qlt_bool_true in Hquick. rewrite Hquick.
  apply Qlt_bool_true in Hshort. rewrite Hshort.
  reflexivity.
Qed.

(** C3.  The toggle is -1 -> 0, 0 -> 1, 1 -> 0; a press on the part
    followed, after any moves, by a release less than 0.3 s later and
    less than 15 px away horizontally ends in [Static] at the toggle of
    the position held before the press; two such taps from 0 give 1,
    then 0. *)
Theorem tap_toggles_orientation :
  (toggle PosNeg1 = Pos0 /\ toggle Pos0 = Pos1 /\ toggle Pos1 = Pos0) /\
  (forall p tr down pixel rot_down t_down moves t_up rot_up,
      is_hit pixel ->
      quick_and_short down t_down moves t_up ->
      partPositioning
        (gesture down pixel rot_down t_down moves t_up rot_up
           {| partPositioning := Static p; tracking := tr |})
      = Static (toggle p)) /\
  (forall tr down1 pixel1 rot_down1 t_down1 moves1 t_up1 rot_up1
          down2 pixel2 rot_down2 t_down2 moves2 t_up2 rot_up2,
      is_hit pixel1 -> quick_and_short down1 t_down1 moves1 t_up1 ->
      is_hit pixel2 -> quick_and_short down2 t_down2 moves2 t_up2 ->
      let g0 := {| partPositioning := Static Pos0; tracking := tr |} in
      let g1 := gesture down1 pixel1 rot_down1 t_down1 moves1 t_up1 rot_up1 g0 in
      let g2 := gesture down2 pixel2 rot_down2 t_down2 moves2 t_up2 rot_up2 g1 in
      map position_value [Pos0; Pos1; Pos0] = [0; 1; 0]%Z /\
      partPositioning g0 = Static Pos0 /\
      partPositioning g1 = Static Pos1 /\
      partPositioning g2 = Static Pos0).
Proof.
  split; [repeat split|]. split.
  - intros. rewrite tap_gesture by assumption. reflexivity.
  - intros tr d1 px1 r1 t1 m1 u1 ru1 d2 px2 r2 t2 m2 u2 ru2 H1 Q1 H2 Q2.
    cbv zeta.
    rewrite (tap_gesture Pos0 tr d1 px1 r1 t1 m1 u1 ru1 H1 Q1).
    change (toggle Pos0) with Pos1.
    rewrite (tap_gesture Pos1 false d2 px2 r2 t2 m2 u2 ru2 H2 Q2).
    repeat split.
Qed.

Lemma tap_toggles_orientation_witness :
  let down := MouseEvent 200 150 in
  let moves := [MouseEvent 230 150; MouseEvent 204 151] in
  let pixel := (40, 40, 40, 255)%Z in
  (is_hit pixel /\ quick_and_short down 10 moves (10 + 0.2)) /\
  partPositioning
    (gesture down pixel 1 10 moves (10 + 0.2) (1 # 3)
       {| partPositioning := Static Pos1; tracking := false |})
  = Static Pos0.
Proof.
  cbv zeta.
  assert (is_hit (40, 40, 40, 255)%Z) as Hhit by (intro H; discriminate H).
  assert (quick_and_short (MouseEvent 200 150) 10
            [MouseEvent 230 150; MouseEvent 204 151] (10 + 0.2)) as Hq
      by (split; reflexivity).
  split; [split; assumption|].
  exact (proj1 (proj2 tap_toggles_orientation) Pos1 false _ _ 1 10 _ _ (1 # 3)
           Hhit Hq).
Defined.

(** C9, as amended.  A press whose sampled pixel has all four channels
    equal to 0 leaves the gesture state as it was; with any other pixel
    the listeners are attached and a resting part goes to [WillMove]. *)
Theorem transparent_black_press_is_ignored :
  (forall e rot now g, readyMouse e (0, 0, 0, 0)%Z rot now g = g) /\
  (forall e pixel rot now p tr,
      is_hit pixel ->
      readyMouse e pixel rot now
        {| partPositioning := Static p; tracking := tr |}
      = {| partPositioning :=
             WillMove rot (eventCoords e) {| startTime := now |} p;
           tracking := true |}).
Proof.
  split.
  - intros e rot now g. unfold readyMouse.
    destruct (eventCoords e). reflexivity.
  - intros. apply readyMouse_hit_static. assumption.
Qed.

Lemma transparent_black_press_is_ignored_witness :
  is_hit (0, 0, 255, 255)%Z /\
  readyMouse (MouseEvent 12 34) (0, 0, 255, 255)%Z (1 # 2) 7
    {| partPositioning := Static PosNeg1; tracking := false |}
  = {| partPositioning :=
         WillMove (1 # 2) (12, 34) {| startTime := 7 |} PosNeg1;
       tracking := true |}.
Proof.
  assert (is_hit (0, 0, 255, 255)%Z) as H by (intro E; discriminate E).
  split; [exact H|].
  exact (proj2 transparent_black_press_is_ignored (MouseEvent 12 34) _
           (1 # 2) 7 PosNeg1 false H).
Defined.

(** C9, as stated, fails: a pixel with alpha 0 and a non-zero red
    channel is taken for a hit. *)
Lemma alpha_zero_press_is_not_always_ignored :
  ~ (forall e r g b rot now st, readyMouse e (r, g, b, 0)%Z rot now st = st).
Proof.
  intro H.
  specialize (H (MouseEvent 12 34) 255%Z 0%Z 0%Z 0 0
                {| partPositioning := Static Pos0; tracking := false |}).
  discriminate H.
Qed.

End Gestures.

Section Release.

(** The snap of a drag that was not a tap: the rounded, wrapped
    rotation clamped to -1 .. 1. *)
Lemma snap_is_clamp (rounded : Z) :
  position_value
    (if (rounded <=? -1)%Z then PosNeg1
     else if (1 <=? rounded)%Z then Pos1 else Pos0)
  = Z.max (-1) (Z.min 1 rounded).
Proof.
  destruct (rounded <=? -1)%Z eqn:A; [apply Z.leb_le in A; simpl; lia|].
  apply Z.leb_gt in A.
  destruct (1 <=? rounded)%Z eqn:B;
    [apply Z.leb_le in B | apply Z.leb_gt in B]; simpl; lia.
Qed.

Lemma position_value_cases (p : StaticPosition) :
  (position_value p = -1 \/ position_value p = 0 \/ position_value p = 1)%Z.
Proof. destruct p; simpl; auto. Qed.

(** C10.  From every gesture state the release handler ends in
    [Static] with a position among -1, 0, 1 and detaches the
    listeners; released while [Static] it toggles; released from a drag
    that is not a tap it takes the rounded wrapped rotation clamped
    into -1 .. 1, whatever the wrap returned. *)
Theorem release_always_rests (now rotation_current : Q) (g : Gesture) :
  exists p,
    forgetMouse now rotation_current g
    = {| partPositioning := Static p; tracking := false |} /\
    (position_value p = -1 \/ position_value p = 0 \/ position_value p = 1)%Z /\
    (forall q, partPositioning g = Static q -> p = toggle q) /\
    (forall startRot startPos lastStatic clock x,
        partPositioning g = Moving startRot startPos lastStatic clock x ->
        ~ (getElapsedTime clock now < 0.3 /\ Qabs (x - fst startPos) < 15) ->
        position_value p
        = Z.max (-1) (Z.min 1 (JS.Math_round (bound rotation_current (-1, 1))))).
Proof.
  destruct g as [pos tr]. unfold forgetMouse. cbn [partPositioning].
  destruct pos as [q | sr sp c ls | sr sp ls c x].
  - exists (toggle q). split; [reflexivity|].
    split; [apply position_value_cases|].
    split; [intros q' E; injection E as <-; reflexivity|].
    intros ? ? ? ? ? E. discriminate E.
  - exists (toggle ls). split; [reflexivity|].
    split; [apply position_value_cases|].
    split; intros; discriminate.
  - destruct (JS.Qlt_bool (getElapsedTime c now) 0.3
              && JS.Qlt_bool (JS.Math_abs (x - fst sp)) 15) eqn:T.
    + exists (toggle ls). split; [reflexivity|].
      split; [apply position_value_cases|].
      split; [intros; discriminate|].
      intros sr' sp' ls' c' x' E Hn. injection E as <- <- <- <- <-.
      exfalso. apply Hn.
      apply andb_true_iff in T. destruct T as [T1 T2].
      apply Qlt_bool_true in T1, T2. split; assumption.
    + set (rounded := JS.Math_round (bound rotation_current (-1, 1))).
      exists (if (rounded <=? -1)%Z then PosNeg1
              else if (1 <=? rounded)%Z then Pos1 else Pos0).
      split.
      { destruct (rounded <=? -1)%Z; [reflexivity|].
        destruct (1 <=? rounded)%Z; reflexivity. }
      split; [apply position_value_cases|].
      split; [intros; discriminate|].
      intros. apply snap_is_clamp.
Qed.

Lemma release_always_rests_witness :
  let g :=
    {| partPositioning := Moving 0 (400, 100) Pos0 {| startTime := 0 |} 40;
       tracking := true |} in
  ~ (getElapsedTime {| startTime := 0 |} 2 < 0.3
     /\ Qabs (40 - fst (400, 100)) < 15) /\
  exists p,
    forgetMouse 2 (-13 # 5) g
    = {| partPositioning := Static p; tracking := false |} /\
    position_value p
    = Z.max (-1) (Z.min 1 (JS.Math_round (bound (-13 # 5) (-1, 1)))) /\
    JS.Math_round (bound (-13 # 5) (-1, 1)) = (-3)%Z.
Proof.
  cbv zeta.
  assert (~ (getElapsedTime {| startTime := 0 |} 2 < 0.3
             /\ Qabs (40 - fst (400, 100)) < 15)) as Hn
      by (intros [H _]; vm_compute in H; discriminate H).
  split; [exact Hn|].
  destruct (release_always_rests 2 (-13 # 5)
              {| partPositioning :=
                   Moving 0 (400, 100) Pos0 {| startTime := 0 |} 40;
                 tracking := true |}) as [p [E [_ [_ Hsnap]]]].
  exists p. split; [exact E|].
  split; [exact (Hsnap _ _ _ _ _ eq_refl Hn)|].
  reflexivity.
Defined.

End Release.

(** ** The download name *)

Section Download.

Lemma toFixed0_nonneg (x : Q) :
  0 <= x -> JS.toFixed0 x = decimal (Qfloor (x + (1 # 2))).
Proof.
  intro Hx. unfold JS.toFixed0, decimal.
  assert (JS.Qlt_bool x 0 = false) as E by (apply Qlt_bool_false; exact Hx).
  rewrite E.
  assert (0 <= Qfloor (x + (1 # 2)))%Z as Hn.
  { change 0%Z with (Qfloor 0). apply Qfloor_resp_le. lra. }
  destruct (Qfloor (x + (1 # 2))) as [|n|n]; [reflexivity | reflexivity | lia].
Qed.

Lemma half_up_is_nearest (x : Q) : nearest_integer x (Qfloor (x + (1 # 2))).
Proof.
  unfold nearest_integer.
  pose proof (Qfloor_le (x + (1 # 2))).
  pose proof (below_floor_succ (x + (1 # 2))).
  apply Qabs_Qle_condition. split; lra.
Qed.

(** The produced name, field by field. *)
Lemma filename_fields (dims : ModelDimensions) :
  0 <= height dims -> 0 <= outerRadius dims -> 0 <= wallThickness dims ->
  filename dims
  = ("cylinder-" ++ decimal (Qfloor (outerRadius dims * 2 + (1 # 2)))
       ++ "x" ++ decimal (Qfloor (height dims + (1 # 2)))
       ++ "-wall" ++ decimal (Qfloor (wallThickness dims + (1 # 2)))
       ++ "-" ++ (if closedBottom dims then "closed" else "open")
       ++ ".3mf")%string.
Proof.
  intros Hh Hr Hw. unfold filename.
  rewrite !toFixed0_nonneg by lra. reflexivity.
Qed.

(** The clamp of an input handler. *)
Lemma clamp_in_range (lo hi v : Q) :
  lo <= hi ->
  lo <= JS.Math_max lo (JS.Math_min v hi)
  /\ JS.Math_max lo (JS.Math_min v hi) <= hi.
Proof.
  intro H. unfold JS.Math_max, JS.Math_min.
  destruct (JS.Qlt_bool hi v) eqn:A;
    [apply Qlt_bool_true in A | apply Qlt_bool_false in A].
  - destruct (JS.Qlt_bool lo hi) eqn:B;
      [apply Qlt_bool_true in B | apply Qlt_bool_false in B]; lra.
  - destruct (JS.Qlt_bool lo v) eqn:B;
      [apply Qlt_bool_true in B | apply Qlt_bool_false in B]; lra.
Qed.

(** The target dimensions start in range and every input handler keeps
    them there. *)
Lemma target_dimensions_in_range :
  in_range modelDimensions /\
  (forall value dims, in_range dims -> in_range (height_input value dims)) /\
  (forall value dims, in_range dims -> in_range (outerRadius_input value dims)) /\
  (forall value dims, in_range dims -> in_range (wallThickness_input value dims)) /\
  (forall checked dims, in_range dims -> in_range (closedBottom_input checked dims)).
Proof.
  split; [unfold in_range; cbn; repeat split; discriminate|].
  split; [|split; [|split]].
  - intros [v|] dims H; [|exact H].
    destruct H as [_ [Hr Hw]]. unfold in_range. cbn.
    split; [|split; assumption].
    apply clamp_in_range. discriminate.
  - intros [v|] dims H; [|exact H].
    destruct H as [Hh [_ Hw]]. unfold in_range. cbn.
    split; [assumption|]. split; [|assumption].
    apply clamp_in_range. discriminate.
  - intros [v|] dims H; [|exact H].
    destruct H as [Hh [Hr _]]. unfold in_range. cbn.
    split; [assumption|]. split; [assumption|].
    apply clamp_in_range. discriminate.
  - intros checked dims H. exact H.
Qed.

Lemma in_range_printable (dims : ModelDimensions) :
  in_range dims ->
  printable (height dims) /\ printable (outerRadius dims)
  /\ printable (wallThickness dims).
Proof.
  unfold in_range, printable, MIN_HEIGHT, MAX_HEIGHT, MIN_OUTER_RADIUS,
    MAX_OUTER_RADIUS, MIN_WALL_THICKNESS, MAX_WALL_THICKNESS.
  intros [[? ?] [[? ?] [? ?]]]. repeat split; lra.
Qed.

(** C6.  For target dimensions that are not negative (and below the
    [toFixed] switch to exponents) the download name is
    cylinder-{d}x{h}-wall{w}-{open|closed}.3mf, where [d], [h], [w] are
    integers nearest to the diameter [2r], the height and the wall
    thickness, written in decimal; for h = 80, r = 25, w = 3, closed
    bottom, the name is cylinder-50x80-wall3-closed.3mf. *)
Theorem download_name_pattern :
  (forall dims,
      printable (height dims) -> printable (outerRadius dims) ->
      printable (wallThickness dims) ->
      exists d h w : Z,
        nearest_integer (outerRadius dims * 2) d /\
        nearest_integer (height dims) h /\
        nearest_integer (wallThickness dims) w /\
        filename dims
        = ("cylinder-" ++ decimal d ++ "x" ++ decimal h
             ++ "-wall" ++ decimal w
             ++ "-" ++ (if closedBottom dims then "closed" else "open")
             ++ ".3mf")%string) /\
  filename {| height := 80; outerRadius := 25; wallThickness := 3;
              closedBottom := true |}
  = "cylinder-50x80-wall3-closed.3mf"%string.
Proof.
  split; [|reflexivity].
  intros dims [Hh _] [Hr _] [Hw _].
  exists (Qfloor (outerRadius dims * 2 + (1 # 2))),
         (Qfloor (height dims + (1 # 2))),
         (Qfloor (wallThickness dims + (1 # 2))).
  split; [apply half_up_is_nearest|].
  split; [apply half_up_is_nearest|].
  split; [apply half_up_is_nearest|].
  apply filename_fields; assumption.
Qed.

Lemma download_name_pattern_witness :
  let dims := {| height := 120; outerRadius := 37 # 2; wallThickness := 2;
                 closedBottom := false |} in
  (printable (height dims) /\ printable (outerRadius dims)
   /\ printable (wallThickness dims)) /\
  (exists d h w : Z,
      nearest_integer (outerRadius dims * 2) d /\
      nearest_integer (height dims) h /\
      nearest_integer (wallThickness dims) w /\
      filename dims
      = ("cylinder-" ++ decimal d ++ "x" ++ decimal h
           ++ "-wall" ++ decimal w ++ "-" ++ "open" ++ ".3mf")%string) /\
  filename dims = "cylinder-37x120-wall2-open.3mf"%string.
Proof.
  cbv zeta.
  assert (forall x, 0 <= x -> x < 1000 -> printable x) as P
      by (intros x H0 H1; split; [exact H0 | lra]).
  assert (printable 120) as P1 by (apply P; lra).
  assert (printable (37 # 2)) as P2 by (apply P; lra).
  assert (printable 2) as P3 by (apply P; lra).
  split; [split; [exact P1 | split; [exact P2 | exact P3]]|].
  split; [|reflexivity].
  exact (proj1 download_name_pattern
           {| height := 120; outerRadius := 37 # 2; wallThickness := 2;
              closedBottom := false |} P1 P2 P3).
Defined.

End Download.

(** ** The cavity of the cylinder *)

Section Cavity.

Variables Math_cos Math_sin : Q -> Q.
Variable Math_random : nat -> Q.

Lemma Math_max_is_max (a b : Q) : JS.Math_max a b == Qmax a b.
Proof.
  unfold JS.Math_max.
  destruct (JS.Qlt_bool a b) eqn:E;
    [apply Qlt_bool_true in E | apply Qlt_bool_false in E].
  - symmetry. apply Q.max_r. lra.
  - symmetry. apply Q.max_l. exact E.
Qed.

Lemma Math_max_zero_clamps (d : Q) : d < 0 -> JS.Math_max 0 d = 0.
Proof.
  intro H. unfold JS.Math_max.
  assert (JS.Qlt_bool 0 d = false) as E by (apply Qlt_bool_false; lra).
  rewrite E. reflexivity.
Qed.

(** A circle of radius 0 has all its vertices at the origin. *)
Lemma circle_zero_collapses :
  Forall (fun v : Vec2 => fst v == 0 /\ snd v == 0)
         (vertices (Model.circle Math_cos Math_sin 0)).
Proof.
  unfold Model.circle, vertices. apply Forall_forall.
  intros v Hin. apply in_map_iff in Hin. destruct Hin as [i [<- _]].
  cbn [fst snd]. split; ring.
Qed.

(** X23.  For every input and every side pattern, what
    [hollowCylinder] hands to the kernel is the outer solid minus a
    cavity extruded from the circle of radius
    [max(0, outerRadius - wallThickness)], a polygon of 64 vertices.
    When the wall is thicker than the outer radius that radius is 0 and
    all 64 vertices of the cavity's cross-section are the origin.  What
    the kernel makes of such a section is not part of the sources. *)
Theorem cavity_radius_is_clamped (height outerRadius wallThickness : Q)
    (closedBottom : bool) (sidePattern : Model.SidePattern) :
  exists outer innerRadius,
    Model.hollowCylinder Math_cos Math_sin Math_random
      height outerRadius wallThickness closedBottom sidePattern
    = subtract outer
        (translate
           (extrude (Model.circle Math_cos Math_sin innerRadius)
                    (if closedBottom then height - wallThickness else height))
           (0, 0, if closedBottom then wallThickness else 0)) /\
    innerRadius == Qmax 0 (outerRadius - wallThickness) /\
    0 <= innerRadius /\
    List.length (vertices (Model.circle Math_cos Math_sin innerRadius))
    = 64%nat /\
    (outerRadius < wallThickness ->
     innerRadius = 0 /\
     Forall (fun v : Vec2 => fst v == 0 /\ snd v == 0)
            (vertices (Model.circle Math_cos Math_sin innerRadius))).
Proof.
  unfold Model.hollowCylinder.
  eexists. exists (JS.Math_max 0 (outerRadius - wallThickness)).
  split; [reflexivity|].
  split; [apply Math_max_is_max|].
  split; [rewrite Math_max_is_max; apply Q.le_max_l|].
  split.
  - unfold Model.circle, vertices, Model.indices.
    rewrite length_map, length_seq. reflexivity.
  - intro H. rewrite Math_max_zero_clamps by lra.
    split; [reflexivity | apply circle_zero_collapses].
Qed.

End Cavity.

Lemma cavity_radius_is_clamped_witness :
  let cos_ := fun _ : Q => 1 in
  let sin_ := fun _ : Q => 0 in
  let rnd := fun _ : nat => 1 # 2 in
  5 < 20 /\
  exists outer innerRadius,
    Model.hollowCylinder cos_ sin_ rnd 50 5 20 true Model.normal
    = subtract outer
        (translate (extrude (Model.circle cos_ sin_ innerRadius) (50 - 20))
                   (0, 0, 20)) /\
    innerRadius = 0 /\
    List.length (vertices (Model.circle cos_ sin_ innerRadius)) = 64%nat.
Proof.
  cbv zeta. split; [reflexivity|].
  destruct (cavity_radius_is_clamped (fun _ => 1) (fun _ => 0)
              (fun _ => 1 # 2) 50 5 20 true Model.normal)
    as [outer [innerRadius [E [_ [_ [L H]]]]]].
  exists outer, innerRadius. split; [exact E|].
  split; [apply H; reflexivity | exact L].
Defined.

(** ** The regeneration scheduler *)

Section Scheduler.

(** What a frame does to the scheduler's variables, by whether it
    starts a call. *)
Lemma loop_holds (nowMillis : Q) (inp : FrameInput) (s : LoopState) :
  reloadModelNow nowMillis
    (if dimensionsUpdated inp then true else reloadModelNeeded s)
    (modelLoadStarted s) = false ->
  inFlight (loop nowMillis inp s) = inFlight s /\
  callsStarted (loop nowMillis inp s) = callsStarted s /\
  modelLoadStarted (loop nowMillis inp s) = modelLoadStarted s /\
  reloadModelNeeded (loop nowMillis inp s)
  = (if dimensionsUpdated inp then true else reloadModelNeeded s).
Proof.
  intro H. unfold loop. cbv zeta.
  cbn [inFlight callsStarted modelLoadStarted reloadModelNeeded].
  rewrite H. repeat split.
Qed.

Lemma loop_starts (nowMillis : Q) (inp : FrameInput) (s : LoopState) :
  reloadModelNow nowMillis
    (if dimensionsUpdated inp then true else reloadModelNeeded s)
    (modelLoadStarted s) = true ->
  inFlight (loop nowMillis inp s)
  = {| call_id := callsStarted s;
       call_started := nowMillis;
       call_height := height_current inp;
       call_outerRadius := outerRadius_current inp;
       call_wallThickness := wallThickness_current inp;
       call_closedBottom := closedBottom_latest inp |} :: inFlight s /\
  callsStarted (loop nowMillis inp s) = S (callsStarted s) /\
  modelLoadStarted (loop nowMillis inp s) = Some nowMillis /\
  reloadModelNeeded (loop nowMillis inp s) = false.
Proof.
  intro H. unfold loop. cbv zeta.
  cbn [inFlight callsStarted modelLoadStarted reloadModelNeeded].
  rewrite H. repeat split.
Qed.

(** While the marker is set and the frame is within 100 ms of it, no
    call starts. *)
Lemma no_start_within_timeout (nowMillis started : Q) (needed : bool) :
  nowMillis - started <= 100 ->
  reloadModelNow nowMillis needed (Some started) = false.
Proof.
  intro H. unfold reloadModelNow.
  apply Qlt_bool_false in H. rewrite H. apply andb_false_r.
Qed.

Lemma settle_only_call (c : Call) (o : Settlement) (s : LoopState) :
  inFlight s = [c] -> inFlight (settle c o s) = [].
Proof.
  intro H. destruct o; unfold settle; cbn; rewrite H; cbn;
    rewrite Nat.eqb_refl; reflexivity.
Qed.

Lemma find_in_singleton (c c' : Call) (id : nat) :
  find (fun x => (call_id x =? id)%nat) [c] = Some c' -> c' = c.
Proof.
  cbn. destruct (call_id c =? id)%nat; congruence.
Qed.

(** One timely step keeps the scheduler single-flight. *)
Lemma single_flight_step (s s' : LoopState) (e : Event) :
  single_flight s -> timely s e = true -> step s e = Some s' ->
  single_flight s'.
Proof.
  intros Inv Ht Hs. destruct e as [now inp | id o]; cbn in Hs.
  - destruct (frameRequested s); [|discriminate].
    injection Hs as <-.
    destruct (reloadModelNow now
                (if dimensionsUpdated inp then true else reloadModelNeeded s)
                (modelLoadStarted s)) eqn:R.
    + destruct (loop_starts _ _ _ R) as [Hin [_ [Hm _]]].
      destruct Inv as [Hnil | [c [Hc Hmark]]].
      * right. eexists. rewrite Hin, Hnil. split; [reflexivity|].
        rewrite Hm. reflexivity.
      * exfalso. cbn [timely] in Ht. rewrite Hc in Ht. cbn [existsb] in Ht.
        rewrite orb_false_r in Ht.
        rewrite Hmark in R. unfold reloadModelNow in R.
        rewrite R in Ht. discriminate Ht.
    + destruct (loop_holds _ _ _ R) as [Hin [_ [Hm _]]].
      unfold single_flight. rewrite Hin, Hm. exact Inv.
  - destruct (find _ (inFlight s)) as [c|] eqn:F; [|discriminate].
    injection Hs as <-.
    destruct Inv as [Hnil | [c0 [Hc _]]].
    + rewrite Hnil in F. discriminate.
    + rewrite Hc in F. apply find_in_singleton in F. subst c.
      left. apply settle_only_call. exact Hc.
Qed.

Lemma single_flight_timely_run (es : list Event) :
  forall s s', single_flight s -> timely_run s es = Some s' -> single_flight s'.
Proof.
  induction es as [|e es IH]; intros s s' Inv H; cbn in H.
  - injection H as <-. exact Inv.
  - destruct (timely s e) eqn:T; [|discriminate].
    destruct (step s e) as [s1|] eqn:S1; [|discriminate].
    apply (IH s1); [|exact H].
    apply (single_flight_step s s1 e); assumption.
Qed.

Lemma timely_run_is_run (es : list Event) :
  forall s s', timely_run s es = Some s' -> run s es = Some s'.
Proof.
  induction es as [|e es IH]; intros s s' H; cbn in *; [exact H|].
  destruct (timely s e); [|discriminate].
  destruct (step s e) as [s1|]; [|discriminate].
  apply IH. exact H.
Qed.

(** C1, as amended.  Along every run from the initial state in which
    no frame with a reload pending arrives more than 100 ms after the
    start of a call still in flight, every state reached has at most
    one [reloadModel] call unresolved, and while one is unresolved the
    load marker is its start.  A frame with a reload pending that
    arrives more than 100 ms after the load marker starts a further
    call, whatever is still in flight. *)
Theorem single_flight_in_timely_runs :
  (forall es s,
      timely_run initial es = Some s ->
      reachable s /\ (List.length (inFlight s) <= 1)%nat /\ single_flight s) /\
  (forall s nowMillis inp started,
      modelLoadStarted s = Some started ->
      (if dimensionsUpdated inp then true else reloadModelNeeded s) = true ->
      100 < nowMillis - started ->
      exists c,
        inFlight (loop nowMillis inp s) = c :: inFlight s /\
        call_started c = nowMillis /\
        modelLoadStarted (loop nowMillis inp s) = Some nowMillis).
Proof.
  split.
  - intros es s H.
    split; [exists es; apply timely_run_is_run; exact H|].
    assert (single_flight s) as Inv.
    { apply (single_flight_timely_run es initial s);
        [left; reflexivity | exact H]. }
    split; [|exact Inv].
    destruct Inv as [-> | [c [-> _]]]; cbn; lia.
  - intros s now inp started Hm Hp Hlate.
    assert (reloadModelNow now
              (if dimensionsUpdated inp then true else reloadModelNeeded s)
              (modelLoadStarted s) = true) as R.
    { rewrite Hm, Hp. unfold reloadModelNow. cbn [andb].
      apply Qlt_bool_true. exact Hlate. }
    destruct (loop_starts _ _ _ R) as [Hin [_ [Hmark _]]].
    eexists. split; [exact Hin|]. split; [reflexivity | exact Hmark].
Qed.

Lemma single_flight_in_timely_runs_witness :
  let es := [Frame 0 (at_rest 50 25 3 true);
             Frame 150 (at_rest 50 25 3 true);
             Frame 400 (at_rest 50 25 3 true);
             Settle 0 (Fulfilled (cylinder 50 25));
             Frame 416 (height_moving 54 25 3 true)] in
  (exists s,
      timely_run initial es = Some s /\
      reachable s /\ (List.length (inFlight s) <= 1)%nat /\ single_flight s /\
      callsStarted s = 2%nat) /\
  (let s1 := loop 0 (at_rest 50 25 3 true) initial in
   (modelLoadStarted s1 = Some 0 /\
    (if dimensionsUpdated (height_moving 52 25 3 true) then true
     else reloadModelNeeded s1) = true /\
    100 < 150 - 0) /\
   List.length (inFlight (loop 150 (height_moving 52 25 3 true) s1)) = 2%nat).
Proof.
  cbv zeta. split.
  - assert (exists s,
               timely_run initial
                 [Frame 0 (at_rest 50 25 3 true);
                  Frame 150 (at_rest 50 25 3 true);
                  Frame 400 (at_rest 50 25 3 true);
                  Settle 0 (Fulfilled (cylinder 50 25));
                  Frame 416 (height_moving 54 25 3 true)] = Some s
               /\ callsStarted s = 2%nat) as [s [Hs Hn]]
        by (eexists; split; reflexivity).
    exists s. split; [exact Hs|].
    destruct (proj1 single_flight_in_timely_runs _ s Hs) as [R [L I]].
    split; [exact R|]. split; [exact L|]. split; [exact I | exact Hn].
  - assert (modelLoadStarted (loop 0 (at_rest 50 25 3 true) initial) = Some 0)
      as H1 by reflexivity.
    assert ((if dimensionsUpdated (height_moving 52 25 3 true) then true
             else reloadModelNeeded (loop 0 (at_rest 50 25 3 true) initial))
            = true) as H2 by reflexivity.
    assert (100 < 150 - 0) as H3 by reflexivity.
    split; [split; [exact H1 | split; [exact H2 | exact H3]]|].
    destruct (proj2 single_flight_in_timely_runs
                (loop 0 (at_rest 50 25 3 true) initial) 150
                (height_moving 52 25 3 true) 0 H1 H2 H3) as [c [E _]].
    rewrite E. reflexivity.
Defined.

(** C1, as stated, fails: the first frame starts a call; a frame 150 ms
    later, with a dimension still animating and the first call
    unresolved, starts a second one through the stuck-load escape. *)
Lemma stuck_load_escape_starts_second_call :
  ~ (forall s, reachable s -> (List.length (inFlight s) <= 1)%nat).
Proof.
  intro H.
  assert (exists s,
             run initial [Frame 0 (at_rest 50 25 3 true);
                          Frame 150 (height_moving 52 25 3 true)] = Some s
             /\ List.length (inFlight s) = 2%nat) as [s [Hrun Hlen]]
      by (eexists; split; reflexivity).
  specialize (H s (ex_intro _ _ Hrun)). lia.
Qed.

End Scheduler.

Section Coalescing.

(** Frames that fall within the timeout of the one call in flight start
    nothing; they only accumulate the reload flag. *)
Lemma frames_during_flight (c : Call) (fs : list (Q * FrameInput)) :
  forall s,
    inFlight s = [c] ->
    modelLoadStarted s = Some (call_started c) ->
    Forall (within_timeout c) fs ->
    inFlight (frames fs s) = [c] /\
    modelLoadStarted (frames fs s) = Some (call_started c) /\
    callsStarted (frames fs s) = callsStarted s /\
    reloadModelNeeded (frames fs s)
    = (existsb changes fs || reloadModelNeeded s).
Proof.
  induction fs as [|f fs IH]; intros s Hin Hm Hall.
  - repeat split; assumption.
  - inversion Hall as [|f' fs' Hf Hfs]; subst.
    unfold frames. cbn [fold_left]. fold (frames fs (loop (fst f) (snd f) s)).
    assert (reloadModelNow (fst f)
              (if dimensionsUpdated (snd f) then true else reloadModelNeeded s)
              (modelLoadStarted s) = false) as R.
    { rewrite Hm. apply no_start_within_timeout. exact Hf. }
    destruct (loop_holds _ _ _ R) as [H1 [H2 [H3 H4]]].
    destruct (IH (loop (fst f) (snd f) s)) as [I1 [I2 [I3 I4]]];
      [congruence | congruence | exact Hfs |].
    split; [exact I1|]. split; [exact I2|]. split; [congruence|].
    rewrite I4, H4. cbn [existsb]. unfold changes at 2.
    destruct (dimensionsUpdated (snd f)), (existsb changes fs),
      (reloadModelNeeded s); reflexivity.
Qed.

Lemma some_change (fs : list (Q * FrameInput)) :
  (1 <= List.length (filter changes fs))%nat -> existsb changes fs = true.
Proof.
  induction fs as [|f fs IH]; cbn [filter existsb List.length]; [lia|].
  destruct (changes f); [reflexivity|]. exact IH.
Qed.

(** Frames without a change, once the flag is down, start nothing. *)
Lemma frames_without_change (gs : list (Q * FrameInput)) :
  forall s,
    reloadModelNeeded s = false ->
    Forall (fun f => changes f = false) gs ->
    callsStarted (frames gs s) = callsStarted s /\
    inFlight (frames gs s) = inFlight s.
Proof.
  induction gs as [|g gs IH]; intros s Hflag Hall; [split; reflexivity|].
  inversion Hall as [|g' gs' Hg Hgs]; subst.
  unfold frames. cbn [fold_left]. fold (frames gs (loop (fst g) (snd g) s)).
  unfold changes in Hg.
  assert (reloadModelNow (fst g)
            (if dimensionsUpdated (snd g) then true else reloadModelNeeded s)
            (modelLoadStarted s) = false) as R
      by (rewrite Hg, Hflag; reflexivity).
  destruct (loop_holds _ _ _ R) as [H1 [H2 [_ H4]]].
  rewrite Hg, Hflag in H4.
  destruct (IH _ H4 Hgs) as [I1 I2].
  split; congruence.
Qed.

(** C2, as amended.  Let one call be in flight and let the frames seen
    before it completes all fall within 100 ms of its start, N >= 1 of
    them with a dimension changing.  Those frames start no call; once
    the call has completed, the next frame starts exactly one call, with
    the dimensions current at that frame, and later frames without a
    change start none: one call after the completion, not N and not
    zero. *)
Theorem changes_during_flight_coalesce
    (s : LoopState) (c : Call) (fs : list (Q * FrameInput)) (N : nat)
    (model : Manifold) (g : Q * FrameInput) (gs : list (Q * FrameInput)) :
  inFlight s = [c] ->
  modelLoadStarted s = Some (call_started c) ->
  Forall (within_timeout c) fs ->
  N = List.length (filter changes fs) ->
  (1 <= N)%nat ->
  Forall (fun f => changes f = false) gs ->
  let s1 := frames fs s in
  let s2 := settle c (Fulfilled model) s1 in
  let s3 := loop (fst g) (snd g) s2 in
  let s4 := frames gs s3 in
  (callsStarted s1 = callsStarted s /\ inFlight s1 = [c]) /\
  (callsStarted s2 = callsStarted s /\ inFlight s2 = []) /\
  (callsStarted s3 = S (callsStarted s2) /\
   exists c',
     inFlight s3 = [c'] /\
     call_started c' = fst g /\
     call_height c' = height_current (snd g) /\
     call_outerRadius c' = outerRadius_current (snd g) /\
     call_wallThickness c' = wallThickness_current (snd g) /\
     call_closedBottom c' = closedBottom_latest (snd g)) /\
  (callsStarted s4 = S (callsStarted s2) /\ inFlight s4 = inFlight s3).
Proof.
  intros Hin Hm Hall HN HN1 Hquiet. cbv zeta.
  destruct (frames_during_flight c fs s Hin Hm Hall) as [F1 [F2 [F3 F4]]].
  rewrite some_change in F4 by (rewrite <- HN; exact HN1). cbn in F4.
  set (s1 := frames fs s) in *.
  pose proof (settle_only_call c (Fulfilled model) s1 F1) as S1.
  set (s2 := settle c (Fulfilled model) s1) in *.
  assert (callsStarted s2 = callsStarted s1) as S2 by reflexivity.
  assert (modelLoadStarted s2 = None) as S3 by reflexivity.
  assert (reloadModelNeeded s2 = true) as S4 by exact F4.
  assert (reloadModelNow (fst g)
            (if dimensionsUpdated (snd g) then true else reloadModelNeeded s2)
            (modelLoadStarted s2) = true) as R.
  { rewrite S3, S4. destruct (dimensionsUpdated (snd g)); reflexivity. }
  destruct (loop_starts _ _ _ R) as [L1 [L2 [_ L4]]].
  set (s3 := loop (fst g) (snd g) s2) in *.
  destruct (frames_without_change gs s3 L4 Hquiet) as [G1 G2].
  split; [split; [exact F3 | exact F1]|].
  split; [split; [congruence | exact S1]|].
  split.
  - split; [exact L2|].
    eexists. rewrite L1, S1. split; [reflexivity|]. repeat split.
  - split; [congruence | exact G2].
Qed.

Lemma changes_during_flight_coalesce_witness :
  let s := loop 0 (at_rest 50 25 3 true) initial in
  let c := {| call_id := 0; call_started := 0; call_height := 50;
              call_outerRadius := 25; call_wallThickness := 3;
              call_closedBottom := true |} in
  let fs := [(16, height_moving 60 25 3 true);
             (33, height_moving 70 25 3 true);
             (50, height_moving 80 25 3 true)] in
  let g := (66, at_rest 80 25 3 true) in
  let gs := [(83, at_rest 80 25 3 true); (300, at_rest 80 25 3 true)] in
  (inFlight s = [c] /\ modelLoadStarted s = Some (call_started c) /\
   Forall (within_timeout c) fs /\
   3%nat = List.length (filter changes fs) /\ (1 <= 3)%nat /\
   Forall (fun f => changes f = false) gs) /\
  callsStarted (frames gs (loop (fst g) (snd g)
                             (settle c (Fulfilled (cylinder 50 25))
                                (frames fs s))))
  = S (callsStarted (settle c (Fulfilled (cylinder 50 25)) (frames fs s))).
Proof.
  cbv zeta.
  set (s := loop 0 (at_rest 50 25 3 true) initial).
  set (c := {| call_id := 0; call_started := 0; call_height := 50;
               call_outerRadius := 25; call_wallThickness := 3;
               call_closedBottom := true |}).
  set (fs := [(16, height_moving 60 25 3 true);
              (33, height_moving 70 25 3 true);
              (50, height_moving 80 25 3 true)]).
  set (gs := [(83, at_rest 80 25 3 true); (300, at_rest 80 25 3 true)]).
  assert (inFlight s = [c]) as H1 by reflexivity.
  assert (modelLoadStarted s = Some (call_started c)) as H2 by reflexivity.
  assert (Forall (within_timeout c) fs) as H3
      by (repeat constructor; unfold within_timeout; cbn; lra).
  assert (3%nat = List.length (filter changes fs)) as H4 by reflexivity.
  assert (1 <= 3)%nat as H5 by lia.
  assert (Forall (fun f => changes f = false) gs) as H6
      by (repeat constructor).
  split; [repeat split; assumption|].
  exact (proj1 (proj2 (proj2 (proj2
           (changes_during_flight_coalesce s c fs 3 (cylinder 50 25)
              (66, at_rest 80 25 3 true) gs H1 H2 H3 H4 H5 H6))))).
Defined.

(** C2, as stated, fails when a change is seen later than 100 ms after
    the start of the call in flight: that frame starts a call at once,
    and after the first call has completed a frame without a change
    starts none. *)
Lemma late_change_is_not_deferred :
  ~ (forall s c fs model g gs,
        inFlight s = [c] ->
        modelLoadStarted s = Some (call_started c) ->
        (1 <= List.length (filter changes fs))%nat ->
        Forall (fun f => changes f = false) gs ->
        callsStarted (frames gs (loop (fst g) (snd g)
                                   (settle c (Fulfilled model) (frames fs s))))
        = S (callsStarted (settle c (Fulfilled model) (frames fs s)))).
Proof.
  intro H.
  specialize (H (loop 0 (at_rest 50 25 3 true) initial)
                {| call_id := 0; call_started := 0; call_height := 50;
                   call_outerRadius := 25; call_wallThickness := 3;
                   call_closedBottom := true |}
                [(150, height_moving 80 25 3 true)]
                (cylinder 50 25)
                (166, at_rest 80 25 3 true)
                []
                eq_refl eq_refl (le_n 1) (Forall_nil _)).
  vm_compute in H. discriminate H.
Qed.

End Coalescing.

Section Failure.

Lemma run_keeps_frame_requested (es : list Event) :
  forall s s',
    frameRequested s = true -> run s es = Some s' -> frameRequested s' = true.
Proof.
  induction es as [|e es IH]; intros s s' Hs H; cbn in H.
  - injection H as <-. exact Hs.
  - destruct (step s e) as [s1|] eqn:S1; [|discriminate].
    apply (IH s1); [|exact H].
    destruct e as [now inp | id o]; cbn in S1.
    + rewrite Hs in S1. injection S1 as <-. reflexivity.
    + destruct (find _ (inFlight s)) as [c|]; [|discriminate].
      injection S1 as <-. destruct o; exact Hs.
Qed.

(** In every reachable state the next frame is requested. *)
Lemma reachable_frame_requested (s : LoopState) :
  reachable s -> frameRequested s = true.
Proof.
  intros [es H]. apply (run_keeps_frame_requested es initial s); [reflexivity | exact H].
Qed.

(** C8, as amended.  When the kernel call of a [reloadModel] in flight
    fails: the mesh geometry is left as it was, the next frame stays
    requested and runs, and the load marker and the reload flag are
    left as they were (the marker is not cleared).  A later frame with a
    dimension changing starts a new call once it comes more than 100 ms
    after the marker, and not before.  When the call succeeds: the mesh
    takes the new geometry, the marker is cleared and the camera is
    flagged for re-centring. *)
Theorem kernel_failure_is_contained (s : LoopState) (c : Call) :
  reachable s ->
  In c (inFlight s) ->
  (let s' := settle c Rejected s in
   mesh_geometry s' = mesh_geometry s /\
   (frameRequested s' = true /\
    forall nowMillis inp,
      step s' (Frame nowMillis inp) = Some (loop nowMillis inp s')) /\
   modelLoadStarted s' = modelLoadStarted s /\
   reloadModelNeeded s' = reloadModelNeeded s /\
   centerCameraNeeded s' = centerCameraNeeded s /\
   (forall nowMillis inp,
       dimensionsUpdated inp = true ->
       (forall started,
           modelLoadStarted s = Some started -> 100 < nowMillis - started) ->
       callsStarted (loop nowMillis inp s') = S (callsStarted s') /\
       modelLoadStarted (loop nowMillis inp s') = Some nowMillis) /\
   (forall nowMillis inp started,
       modelLoadStarted s = Some started -> nowMillis - started <= 100 ->
       callsStarted (loop nowMillis inp s') = callsStarted s')) /\
  (forall model,
      let s'' := settle c (Fulfilled model) s in
      mesh_geometry s'' = mesh2geometry model /\
      modelLoadStarted s'' = None /\
      centerCameraNeeded s'' = true).
Proof.
  intros Hreach _. cbv zeta.
  pose proof (reachable_frame_requested s Hreach) as Hfr.
  split; [|intro model; repeat split].
  split; [reflexivity|].
  split.
  { split; [exact Hfr|]. intros now inp. cbn. rewrite Hfr. reflexivity. }
  split; [reflexivity|]. split; [reflexivity|]. split; [reflexivity|].
  split.
  - intros now inp Hupd Hlate.
    assert (reloadModelNow now
              (if dimensionsUpdated inp then true
               else reloadModelNeeded (settle c Rejected s))
              (modelLoadStarted (settle c Rejected s)) = true) as R.
    { rewrite Hupd. cbn [settle modelLoadStarted]. unfold reloadModelNow.
      destruct (modelLoadStarted s) as [started|]; [|reflexivity].
      cbn [andb]. apply Qlt_bool_true. apply Hlate. reflexivity. }
    destruct (loop_starts _ _ _ R) as [_ [L2 [L3 _]]].
    split; assumption.
  - intros now inp started Hm Hearly.
    assert (reloadModelNow now
              (if dimensionsUpdated inp then true
               else reloadModelNeeded (settle c Rejected s))
              (modelLoadStarted (settle c Rejected s)) = false) as R.
    { cbn [settle modelLoadStarted]. rewrite Hm.
      apply no_start_within_timeout. exact Hearly. }
    destruct (loop_holds _ _ _ R) as [_ [L2 _]]. exact L2.
Qed.

Lemma kernel_failure_is_contained_witness :
  let s := loop 0 (at_rest 50 25 3 true) initial in
  let c := {| call_id := 0; call_started := 0; call_height := 50;
              call_outerRadius := 25; call_wallThickness := 3;
              call_closedBottom := true |} in
  let s' := settle c Rejected s in
  (reachable s /\ In c (inFlight s)) /\
  mesh_geometry s' = CylinderGeometry 25 25 50 32 /\
  modelLoadStarted s' = Some 0 /\
  callsStarted (loop 50 (height_moving 80 25 3 true) s') = 1%nat /\
  callsStarted (loop 101 (height_moving 80 25 3 true) s') = 2%nat.
Proof.
  cbv zeta.
  set (s := loop 0 (at_rest 50 25 3 true) initial).
  set (c := {| call_id := 0; call_started := 0; call_height := 50;
               call_outerRadius := 25; call_wallThickness := 3;
               call_closedBottom := true |}).
  assert (reachable s) as Hr
      by (exists [Frame 0 (at_rest 50 25 3 true)]; reflexivity).
  assert (In c (inFlight s)) as Hc by (left; reflexivity).
  split; [split; assumption|].
  destruct (kernel_failure_is_contained s c Hr Hc)
    as [[Hmesh [_ [Hmark [_ [_ [Hretry Hhold]]]]]] _].
  split; [rewrite Hmesh; reflexivity|].
  split; [rewrite Hmark; reflexivity|].
  split.
  - rewrite (Hhold 50 (height_moving 80 25 3 true) 0 eq_refl);
      [reflexivity | vm_compute; discriminate].
  - assert (forall started,
               modelLoadStarted s = Some started -> 100 < 101 - started) as L
        by (intros started E; injection E as <-; reflexivity).
    rewrite (proj1 (Hretry 101 (height_moving 80 25 3 true) eq_refl L)).
    reflexivity.
Defined.

(** C8, as stated, fails in one part: after the first frame has started
    a call and that call fails, the load marker still holds the start
    time. *)
Lemma failure_leaves_load_marker :
  ~ (forall s c,
        reachable s -> In c (inFlight s) ->
        modelLoadStarted (settle c Rejected s) = None).
Proof.
  intro H.
  specialize (H (loop 0 (at_rest 50 25 3 true) initial)
                {| call_id := 0; call_started := 0; call_height := 50;
                   call_outerRadius := 25; call_wallThickness := 3;
                   call_closedBottom := true |}
                (ex_intro _ [Frame 0 (at_rest 50 25 3 true)] eq_refl)
                (or_introl eq_refl)).
  discriminate H.
Qed.

End Failure.

(* ================================================================= *)
(** * Part III.  Further properties of the sources                    *)
(* ================================================================= *)

(** ** The wrap of the rotation *)

Section WrapRange.

(** X1.  The wrap to [-1, 1] keeps the side of -1 its argument is on:
    from -1 upward the result lies in [-1, 1); below -1 it lies in
    (-3, -1], so it is inside the range only when it is -1 itself. *)
Theorem bound_image (v : Q) :
  (-1 <= v -> -1 <= bound v (-1, 1) /\ bound v (-1, 1) < 1) /\
  (v < -1 -> -3 < bound v (-1, 1) /\ bound v (-1, 1) <= -1).
Proof.
  split; intro H.
  - apply bound_in_range_from_minus_one. exact H.
  - apply bound_below_minus_one. exact H.
Qed.

Lemma bound_image_witness :
  (-1 <= 37 # 10 /\ - (27 # 10) < -1) /\
  (-1 <= bound (37 # 10) (-1, 1) /\ bound (37 # 10) (-1, 1) < 1) /\
  (-3 < bound (- (27 # 10)) (-1, 1) /\ bound (- (27 # 10)) (-1, 1) <= -1).
Proof.
  assert (-1 <= 37 # 10) as H1 by discriminate.
  assert (- (27 # 10) < -1) as H2 by reflexivity.
  split; [split; assumption|].
  split.
  - exact (proj1 (bound_image (37 # 10)) H1).
  - exact (proj2 (bound_image (- (27 # 10))) H2).
Defined.

Lemma Math_trunc_small (q : Q) : -1 < q -> q < 1 -> JS.Math_trunc q = 0%Z.
Proof.
  intros Hlo Hhi.
  destruct (Qlt_le_dec q 0) as [Hneg | Hpos].
  - destruct (Math_trunc_neg q Hneg) as [H1 H2].
    assert (inject_Z (-1) < inject_Z (JS.Math_trunc q)) as A
        by (change (inject_Z (-1)) with (-1); lra).
    assert (inject_Z (JS.Math_trunc q) < inject_Z 1) as B
        by (change (inject_Z 1) with 1; lra).
    rewrite <- Zlt_Qlt in A, B. lia.
  - destruct (Math_trunc_nonneg q Hpos) as [H1 H2].
    assert (inject_Z (-1) < inject_Z (JS.Math_trunc q)) as A
        by (change (inject_Z (-1)) with (-1); lra).
    assert (inject_Z (JS.Math_trunc q) < inject_Z 1) as B
        by (change (inject_Z 1) with 1; lra).
    rewrite <- Zlt_Qlt in A, B. lia.
Qed.

(** In the idealised arithmetic the wrap leaves (-3, 1) pointwise
    fixed. *)
Lemma bound_fixes (v : Q) : -3 < v -> v < 1 -> bound v (-1, 1) == v.
Proof.
  intros Hlo Hhi.
  pose proof (half_of_shifted v) as Hh.
  unfold bound, JS.rem.
  set (q := (v - -1) / (1 - -1)) in *.
  rewrite (Math_trunc_small q) by lra.
  change (inject_Z 0) with 0. ring.
Qed.

End WrapRange.

(** ** Release of a drag *)

Section Snap.

Lemma Math_round_comp (x y : Q) : x == y -> JS.Math_round x = JS.Math_round y.
Proof.
  intro E. unfold JS.Math_round. apply Qfloor_comp. rewrite E. reflexivity.
Qed.

Lemma Math_round_window (x : Q) (n : Z) :
  inject_Z n - (1 # 2) <= x -> x < inject_Z n + (1 # 2) ->
  JS.Math_round x = n.
Proof.
  intros Hlo Hhi. unfold JS.Math_round.
  pose proof (Qfloor_le (x + (1 # 2))) as H1.
  pose proof (below_floor_succ (x + (1 # 2))) as H2.
  assert (inject_Z (Qfloor (x + (1 # 2))) < inject_Z (n + 1)) as A
      by (rewrite inject_Z_plus; change (inject_Z 1) with 1; lra).
  assert (inject_Z n < inject_Z (Qfloor (x + (1 # 2)) + 1)) as B
      by (rewrite inject_Z_plus; change (inject_Z 1) with 1; lra).
  rewrite <- Zlt_Qlt in A, B. lia.
Qed.

Lemma Math_round_low (x : Q) : x < - (1 # 2) -> (JS.Math_round x <= -1)%Z.
Proof.
  intro H. unfold JS.Math_round.
  pose proof (Qfloor_le (x + (1 # 2))) as H1.
  assert (inject_Z (Qfloor (x + (1 # 2))) < inject_Z 0) as A
      by (change (inject_Z 0) with 0; lra).
  rewrite <- Zlt_Qlt in A. lia.
Qed.

(** A release that is not a tap. *)
Lemma release_of_drag (now rot : Q) (tr : bool) (sr : Q) (sp : Q * Q)
    (ls : StaticPosition) (c : Clock) (x : Q) :
  ~ (getElapsedTime c now < 0.3 /\ Qabs (x - fst sp) < 15) ->
  partPositioning
    (forgetMouse now rot
       {| partPositioning := Moving sr sp ls c x; tracking := tr |})
  = (let rounded := JS.Math_round (bound rot (-1, 1)) in
     if (rounded <=? -1)%Z then Static PosNeg1
     else if (1 <=? rounded)%Z then Static Pos1 else Static Pos0).
Proof.
  intro Hn. unfold forgetMouse. cbn [partPositioning].
  destruct (JS.Qlt_bool (getElapsedTime c now) 0.3
            && JS.Qlt_bool (JS.Math_abs (x - fst sp)) 15) eqn:T;
    [|reflexivity].
  exfalso. apply Hn.
  apply andb_true_iff in T. destruct T as [T1 T2].
  apply Qlt_bool_true in T1, T2. split; assumption.
Qed.

(** X3.  When a drag that is not a tap is released, the part snaps
    to the rest position the rotation is near: to -1 for every
    rotation at or below -0.6, to 0 for a rotation from -0.4 to 0.4,
    and to 1 for a rotation from 0.6 to 0.9. *)
Theorem release_snaps_to_nearest (now rot : Q) (tr : bool) (sr : Q)
    (sp : Q * Q) (ls : StaticPosition) (c : Clock) (x : Q) :
  ~ (getElapsedTime c now < 0.3 /\ Qabs (x - fst sp) < 15) ->
  let released :=
    partPositioning
      (forgetMouse now rot
         {| partPositioning := Moving sr sp ls c x; tracking := tr |}) in
  (rot <= - (6 # 10) -> released = Static PosNeg1) /\
  (- (4 # 10) <= rot -> rot <= 4 # 10 -> released = Static Pos0) /\
  (6 # 10 <= rot -> rot <= 9 # 10 -> released = Static Pos1).
Proof.
  intro Hn. cbv zeta.
  rewrite (release_of_drag now rot tr sr sp ls c x Hn). cbv zeta.
  split; [|split].
  - intro H.
    assert (bound rot (-1, 1) < - (1 # 2)) as Hb.
    { destruct (Qlt_le_dec rot (-1)) as [L | L].
      - destruct (bound_below_minus_one rot L) as [_ U]. lra.
      - rewrite bound_fixes by lra. lra. }
    pose proof (Math_round_low _ Hb) as R.
    apply Z.leb_le in R. rewrite R. reflexivity.
  - intros H1 H2.
    assert (bound rot (-1, 1) == rot) as E by (apply bound_fixes; lra).
    rewrite (Math_round_comp _ _ E).
    rewrite (Math_round_window rot 0)
      by (change (inject_Z 0) with 0; lra).
    reflexivity.
  - intros H1 H2.
    assert (bound rot (-1, 1) == rot) as E by (apply bound_fixes; lra).
    rewrite (Math_round_comp _ _ E).
    rewrite (Math_round_window rot 1)
      by (change (inject_Z 1) with 1; lra).
    reflexivity.
Qed.

Lemma release_snaps_to_nearest_witness :
  let c := {| startTime := 0 |} in
  (~ (getElapsedTime c 1 < 0.3 /\ Qabs (300 - fst (100, 100)) < 15)
   /\ - (17 # 10) <= - (6 # 10) /\ 6 # 10 <= 7 # 10 /\ 7 # 10 <= 9 # 10) /\
  partPositioning
    (forgetMouse 1 (- (17 # 10))
       {| partPositioning := Moving 0 (100, 100) Pos1 c 300;
          tracking := true |})
  = Static PosNeg1 /\
  partPositioning
    (forgetMouse 1 (7 # 10)
       {| partPositioning := Moving 0 (100, 100) Pos1 c 300;
          tracking := true |})
  = Static Pos1.
Proof.
  cbv zeta.
  assert (~ (getElapsedTime {| startTime := 0 |} 1 < 0.3
             /\ Qabs (300 - fst (100, 100)) < 15)) as Hn
      by (intros [H _]; vm_compute in H; discriminate H).
  assert (- (17 # 10) <= - (6 # 10)) as H1 by discriminate.
  assert (6 # 10 <= 7 # 10) as H2 by discriminate.
  assert (7 # 10 <= 9 # 10) as H3 by discriminate.
  split; [split; [exact Hn | split; [exact H1 | split; [exact H2 | exact H3]]]|].
  split.
  - exact (proj1 (release_snaps_to_nearest 1 (- (17 # 10)) true 0 (100, 100)
                    Pos1 {| startTime := 0 |} 300 Hn) H1).
  - exact (proj2 (proj2 (release_snaps_to_nearest 1 (7 # 10) true 0 (100, 100)
                           Pos1 {| startTime := 0 |} 300 Hn)) H2 H3).
Defined.

End Snap.

(** ** The gesture machine under the page's event dispatch *)

Section Dispatch.

(** What a press has recorded is still in the state. *)
Lemma held_inv (sr : Q) (sp : Q * Q) (c : Clock) (p : StaticPosition)
    (g : Gesture) (ev : GestureEvent) :
  is_release ev = false ->
  (tracking g = true /\
   (partPositioning g = WillMove sr sp c p \/
    exists x, partPositioning g = Moving sr sp p c x)) ->
  tracking (dispatch g ev) = true /\
  (partPositioning (dispatch g ev) = WillMove sr sp c p \/
   exists x, partPositioning (dispatch g ev) = Moving sr sp p c x).
Proof.
  intros Hev [Htr Hpos]. destruct g as [pos tr]. cbn in Htr, Hpos. subst tr.
  destruct ev as [e [[[r gr] b] a] rot now | e | now rot]; [| |discriminate].
  - cbn [dispatch]. unfold readyMouse. destruct (eventCoords e) as [x y].
    destruct ((r =? 0) && (gr =? 0) && (b =? 0) && (a =? 0))%Z.
    + split; [reflexivity | exact Hpos].
    + cbn [partPositioning tracking]. split; [reflexivity|].
      destruct Hpos as [-> | [x0 ->]]; [left; reflexivity | right; eauto].
  - cbn [dispatch tracking]. unfold trackMouse. cbn [partPositioning tracking].
    split; [reflexivity|].
    destruct Hpos as [-> | [x0 ->]]; right; eauto.
Qed.

(** X5.  From a press on the resting part until the release, whatever
    presses and moves arrive, the state keeps the rotation, position,
    clock and resting orientation recorded by that first press, and the
    window listeners stay attached: a second press neither restarts the
    clock nor replaces the orientation to return to. *)
Theorem press_record_is_kept (e : PointerEvent) (pixel : Pixel)
    (rot now : Q) (p : StaticPosition) (tr : bool)
    (evs : list GestureEvent) :
  is_hit pixel ->
  forallb (fun ev => negb (is_release ev)) evs = true ->
  let g :=
    dispatch_all evs
      (dispatch {| partPositioning := Static p; tracking := tr |}
                (PointerDown e pixel rot now)) in
  tracking g = true /\
  (partPositioning g = WillMove rot (eventCoords e) {| startTime := now |} p \/
   exists x,
     partPositioning g
     = Moving rot (eventCoords e) p {| startTime := now |} x).
Proof.
  intros Hhit Hevs. cbv zeta. cbn [dispatch].
  rewrite (readyMouse_hit_static _ _ _ _ _ _ Hhit).
  set (g1 := {| partPositioning :=
                  WillMove rot (eventCoords e) {| startTime := now |} p;
                tracking := true |}).
  assert (tracking g1 = true /\
          (partPositioning g1
           = WillMove rot (eventCoords e) {| startTime := now |} p \/
           exists x,
             partPositioning g1
             = Moving rot (eventCoords e) p {| startTime := now |} x)) as Inv
      by (split; [reflexivity | left; reflexivity]).
  clearbody g1. revert g1 Inv Hevs.
  induction evs as [|ev evs IH]; intros g1 Inv Hevs; [exact Inv|].
  cbn [forallb] in Hevs. apply andb_true_iff in Hevs.
  destruct Hevs as [Hev Hevs]. apply negb_true_iff in Hev.
  unfold dispatch_all. cbn [fold_left]. apply IH; [|exact Hevs].
  apply held_inv; assumption.
Qed.

Lemma press_record_is_kept_witness :
  let evs := [PointerMove (MouseEvent 120 80);
              PointerDown (MouseEvent 300 10) (9, 9, 9, 255)%Z (1 # 4) 5;
              PointerMove (MouseEvent 90 80)] in
  (is_hit (20, 20, 20, 255)%Z
   /\ forallb (fun ev => negb (is_release ev)) evs = true) /\
  partPositioning
    (dispatch_all evs
       (dispatch page_load
          (PointerDown (MouseEvent 100 80) (20, 20, 20, 255)%Z 0 2)))
  = Moving 0 (100, 80) Pos0 {| startTime := 2 |} 90.
Proof.
  cbv zeta.
  assert (is_hit (20, 20, 20, 255)%Z) as Hhit by (intro E; discriminate E).
  split; [split; [exact Hhit | reflexivity]|].
  destruct (press_record_is_kept (MouseEvent 100 80) (20, 20, 20, 255)%Z 0 2
              Pos0 false
              [PointerMove (MouseEvent 120 80);
               PointerDown (MouseEvent 300 10) (9, 9, 9, 255)%Z (1 # 4) 5;
               PointerMove (MouseEvent 90 80)] Hhit eq_refl)
    as [_ [H | [x H]]].
  - discriminate H.
  - reflexivity.
Defined.

(** The release handler ends at rest with the listeners detached. *)
Lemma release_always_rests_aux (now rot : Q) (g : Gesture) :
  exists q,
    forgetMouse now rot g
    = {| partPositioning := Static q; tracking := false |}.
Proof.
  destruct g as [pos tr]. unfold forgetMouse. cbn [partPositioning].
  destruct pos as [q | sr sp c ls | sr sp ls c x]; [eauto | eauto |].
  destruct (JS.Qlt_bool (getElapsedTime c now) 0.3
            && JS.Qlt_bool (JS.Math_abs (x - fst sp)) 15); [eauto|].
  set (rounded := JS.Math_round (bound rot (-1, 1))).
  destruct (rounded <=? -1)%Z; [eauto|].
  destruct (1 <=? rounded)%Z; eauto.
Qed.

Lemma attached_step (g : Gesture) (ev : GestureEvent) :
  tracking g = negb (is_static (partPositioning g)) ->
  tracking (dispatch g ev) = negb (is_static (partPositioning (dispatch g ev))).
Proof.
  intro Inv. destruct g as [pos tr]. cbn in Inv.
  destruct ev as [e [[[r gr] b] a] rot now | e | now rot].
  - cbn [dispatch]. unfold readyMouse. destruct (eventCoords e) as [x y].
    destruct ((r =? 0) && (gr =? 0) && (b =? 0) && (a =? 0))%Z;
      [exact Inv|].
    destruct pos; reflexivity.
  - cbn [dispatch tracking]. destruct tr; [|exact Inv].
    destruct pos; [discriminate Inv | reflexivity | reflexivity].
  - cbn [dispatch tracking]. destruct tr; [|exact Inv].
    destruct (release_always_rests_aux now rot {| partPositioning := pos;
                                                  tracking := true |})
      as [q ->].
    reflexivity.
Qed.

End Dispatch.

Section Machine.

Lemma attached_run (evs : list GestureEvent) :
  forall g,
    tracking g = negb (is_static (partPositioning g)) ->
    tracking (dispatch_all evs g)
    = negb (is_static (partPositioning (dispatch_all evs g))).
Proof.
  induction evs as [|ev evs IH]; intros g Inv; [exact Inv|].
  unfold dispatch_all. cbn [fold_left]. apply IH. apply attached_step. exact Inv.
Qed.

(** X6.  After any stream of pointer events from page load, the window
    listeners are attached exactly when the part is not at rest.  So at
    rest a move or a release anywhere in the window leaves the gesture
    state as it is: the release handler never runs on a resting part. *)
Theorem listeners_attached_while_interacting (evs : list GestureEvent) :
  let g := dispatch_all evs page_load in
  tracking g = negb (is_static (partPositioning g)) /\
  (is_static (partPositioning g) = true ->
   forall e now rot,
     dispatch g (PointerMove e) = g /\ dispatch g (PointerUp now rot) = g).
Proof.
  cbv zeta.
  assert (tracking (dispatch_all evs page_load)
          = negb (is_static (partPositioning (dispatch_all evs page_load))))
    as Inv by (apply attached_run; reflexivity).
  split; [exact Inv|].
  intros Hs e now rot. rewrite Hs in Inv. cbn [negb] in Inv.
  cbn [dispatch]. rewrite Inv. split; reflexivity.
Qed.

Lemma listeners_attached_while_interacting_witness :
  let evs := [PointerDown (MouseEvent 100 80) (20, 20, 20, 255)%Z 0 2;
              PointerMove (MouseEvent 180 80);
              PointerUp 4 (5 # 16)] in
  let g := dispatch_all evs page_load in
  is_static (partPositioning g) = true /\
  dispatch g (PointerMove (MouseEvent 7 7)) = g /\
  dispatch g (PointerUp 9 1) = g.
Proof.
  cbv zeta.
  assert (is_static
            (partPositioning
               (dispatch_all
                  [PointerDown (MouseEvent 100 80) (20, 20, 20, 255)%Z 0 2;
                   PointerMove (MouseEvent 180 80);
                   PointerUp 4 (5 # 16)] page_load)) = true) as Hs
      by reflexivity.
  split; [exact Hs|].
  exact (proj2 (listeners_attached_while_interacting
                  [PointerDown (MouseEvent 100 80) (20, 20, 20, 255)%Z 0 2;
                   PointerMove (MouseEvent 180 80);
                   PointerUp 4 (5 # 16)])
           Hs (MouseEvent 7 7) 9 1).
Defined.

Lemma perform_tap (p : StaticPosition) (tr : bool) (t : Press) :
  is_tap t ->
  perform {| partPositioning := Static p; tracking := tr |} t
  = {| partPositioning := Static (toggle p); tracking := false |}.
Proof.
  intros [Hhit Hq]. unfold perform. apply tap_gesture; assumption.
Qed.

Lemma toggle_thrice (p : StaticPosition) :
  toggle (toggle (toggle p)) = toggle p.
Proof. destruct p; reflexivity. Qed.

Lemma taps_closed_form (taps : list Press) :
  forall p tr,
    Forall is_tap taps ->
    partPositioning
      (fold_left perform taps {| partPositioning := Static p; tracking := tr |})
    = Static (match taps with
              | [] => p
              | _ :: _ =>
                  if Nat.even (List.length taps) then toggle (toggle p)
                  else toggle p
              end).
Proof.
  induction taps as [|t taps IH]; intros p tr Hall; [reflexivity|].
  inversion Hall as [|t' taps' Ht Htaps]; subst.
  cbn [fold_left]. rewrite (perform_tap p tr t Ht).
  rewrite (IH (toggle p) false Htaps).
  destruct taps as [|t2 taps2]; [reflexivity|].
  change (List.length (t :: t2 :: taps2)) with (S (List.length (t2 :: taps2))).
  rewrite Nat.even_succ, <- Nat.negb_even.
  destruct (Nat.even (List.length (t2 :: taps2))); cbn [negb].
  - rewrite toggle_thrice. reflexivity.
  - reflexivity.
Qed.

(** X7.  Any number n >= 1 of consecutive taps from any resting
    orientation ends at the toggle of that orientation when n is odd
    and at its double toggle when n is even; the result is 0 or 1,
    never -1, which only a drag can reach. *)
Theorem repeated_taps_alternate (taps : list Press) (p : StaticPosition)
    (tr : bool) :
  Forall is_tap taps ->
  taps <> [] ->
  exists q,
    partPositioning
      (fold_left perform taps {| partPositioning := Static p; tracking := tr |})
    = Static q /\
    q = (if Nat.even (List.length taps) then toggle (toggle p) else toggle p) /\
    (position_value q = 0 \/ position_value q = 1)%Z.
Proof.
  intros Hall Hne.
  rewrite (taps_closed_form taps p tr Hall).
  destruct taps as [|t taps]; [contradiction|].
  eexists. split; [reflexivity|]. split; [reflexivity|].
  destruct (Nat.even (List.length (t :: taps))); destruct p; cbn; auto.
Qed.

Lemma repeated_taps_alternate_witness :
  let tap :=
    {| press_down := MouseEvent 200 150;
       press_pixel := (40, 40, 40, 255)%Z;
       press_rotation := 0;
       press_time := 10;
       press_moves := [MouseEvent 203 150];
       release_time := 10 + 0.1;
       release_rotation := 0 |} in
  (Forall is_tap [tap; tap; tap] /\ [tap; tap; tap] <> []) /\
  partPositioning
    (fold_left perform [tap; tap; tap]
       {| partPositioning := Static PosNeg1; tracking := false |})
  = Static Pos0.
Proof.
  cbv zeta.
  set (tap := {| press_down := MouseEvent 200 150;
                 press_pixel := (40, 40, 40, 255)%Z;
                 press_rotation := 0;
                 press_time := 10;
                 press_moves := [MouseEvent 203 150];
                 release_time := 10 + 0.1;
                 release_rotation := 0 |}).
  assert (is_tap tap) as Ht.
  { split; [intro E; discriminate E|]. split; reflexivity. }
  assert (Forall is_tap [tap; tap; tap]) as Hall
      by (repeat (apply Forall_cons; [exact Ht|]); apply Forall_nil).
  assert ([tap; tap; tap] <> []) as Hne by discriminate.
  split; [split; assumption|].
  destruct (repeated_taps_alternate [tap; tap; tap] PosNeg1 false Hall Hne)
    as [q [E [Hq _]]].
  rewrite E, Hq. reflexivity.
Defined.

(** X8.  A press on the resting part that is released without any move
    event toggles the orientation however long it was held.  Held for
    0.3 s or more with at least one move event, even one that reports no
    displacement, it does not toggle: the part snaps to the rounded
    wrapped rotation, clamped to -1 .. 1. *)
Theorem long_press_toggles_only_without_moves (p : StaticPosition)
    (tr : bool) (down : PointerEvent) (pixel : Pixel)
    (rot_down t_down t_up rot_up : Q) :
  is_hit pixel ->
  partPositioning
    (gesture down pixel rot_down t_down [] t_up rot_up
       {| partPositioning := Static p; tracking := tr |})
  = Static (toggle p) /\
  (0.3 <= t_up - t_down ->
   forall m moves,
   exists q,
     partPositioning
       (gesture down pixel rot_down t_down (m :: moves) t_up rot_up
          {| partPositioning := Static p; tracking := tr |})
     = Static q /\
     position_value q
     = Z.max (-1) (Z.min 1 (JS.Math_round (bound rot_up (-1, 1))))).
Proof.
  intro Hhit. split.
  - unfold gesture. rewrite (readyMouse_hit_static _ _ _ _ _ _ Hhit).
    reflexivity.
  - intros Hlong m moves. unfold gesture.
    rewrite (readyMouse_hit_static _ _ _ _ _ _ Hhit).
    rewrite (moves_after_press (m :: moves) down).
    rewrite release_of_drag.
    + cbv zeta.
      set (rounded := JS.Math_round (bound rot_up (-1, 1))).
      exists (if (rounded <=? -1)%Z then PosNeg1
              else if (1 <=? rounded)%Z then Pos1 else Pos0).
      split; [|apply snap_is_clamp].
      destruct (rounded <=? -1)%Z; [reflexivity|].
      destruct (1 <=? rounded)%Z; reflexivity.
    + intros [H _]. unfold getElapsedTime in H. cbn [startTime] in H. lra.
Qed.

Lemma long_press_toggles_only_without_moves_witness :
  (is_hit (40, 40, 40, 255)%Z /\ 0.3 <= 3 - 1) /\
  partPositioning
    (gesture (MouseEvent 50 50) (40, 40, 40, 255)%Z 0 1 [] 3 0
       {| partPositioning := Static Pos0; tracking := false |})
  = Static Pos1 /\
  partPositioning
    (gesture (MouseEvent 50 50) (40, 40, 40, 255)%Z 0 1 [MouseEvent 50 50] 3 0
       {| partPositioning := Static Pos0; tracking := false |})
  = Static Pos0.
Proof.
  assert (is_hit (40, 40, 40, 255)%Z) as Hhit by (intro E; discriminate E).
  assert (0.3 <= 3 - 1) as Hlong by (vm_compute; discriminate).
  split; [split; assumption|].
  destruct (long_press_toggles_only_without_moves Pos0 false (MouseEvent 50 50)
              (40, 40, 40, 255)%Z 0 1 3 0 Hhit) as [H1 H2].
  split; [exact H1|].
  destruct (H2 Hlong (MouseEvent 50 50) []) as [q [E _]].
  reflexivity.
Defined.

End Machine.

(** ** The dimension inputs *)

Section Inputs.

Lemma clamp_integral (lo hi v : Z) :
  (lo <= hi)%Z ->
  JS.Math_max (inject_Z lo) (JS.Math_min (inject_Z v) (inject_Z hi))
  = inject_Z (Z.max lo (Z.min v hi)).
Proof.
  intro H. unfold JS.Math_max, JS.Math_min.
  destruct (JS.Qlt_bool (inject_Z hi) (inject_Z v)) eqn:A;
    [apply Qlt_bool_true in A; rewrite <- Zlt_Qlt in A
    |apply Qlt_bool_false in A; rewrite <- Zle_Qle in A].
  - destruct (JS.Qlt_bool (inject_Z lo) (inject_Z hi)) eqn:B;
      [apply Qlt_bool_true in B; rewrite <- Zlt_Qlt in B
      |apply Qlt_bool_false in B; rewrite <- Zle_Qle in B];
      f_equal; lia.
  - destruct (JS.Qlt_bool (inject_Z lo) (inject_Z v)) eqn:B;
      [apply Qlt_bool_true in B; rewrite <- Zlt_Qlt in B
      |apply Qlt_bool_false in B; rewrite <- Zle_Qle in B];
      f_equal; lia.
Qed.

Lemma dimension_inputs_saturate_aux (dims : ModelDimensions) :
  (forall v : Z,
      height (height_input (Some v) dims)
      = inject_Z (Z.max 10 (Z.min v 200))) /\
  (forall v : Z,
      outerRadius (outerRadius_input (Some v) dims)
      = inject_Z (Z.max 5 (Z.min v 100))) /\
  (forall v : Z,
      wallThickness (wallThickness_input (Some v) dims)
      = inject_Z (Z.max 1 (Z.min v 20))).
Proof.
  split; [|split]; intro v.
  - apply (clamp_integral 10 200 v). lia.
  - apply (clamp_integral 5 100 v). lia.
  - apply (clamp_integral 1 20 v). lia.
Qed.

(** X9.  A numeric dimension handler ignores a value that does not
    parse; for every parsed value it stores that value clamped to the
    range of its control (height 10..200, outer radius 5..100, wall
    thickness 1..20) and leaves the three other dimensions as they
    were; the checkbox handler stores the flag and leaves the numbers
    as they were. *)
Theorem dimension_inputs_saturate (dims : ModelDimensions) :
  (height_input None dims = dims /\
   outerRadius_input None dims = dims /\
   wallThickness_input None dims = dims) /\
  (forall v : Z,
      height_input (Some v) dims
      = {| height := inject_Z (Z.max 10 (Z.min v 200));
           outerRadius := outerRadius dims;
           wallThickness := wallThickness dims;
           closedBottom := closedBottom dims |}) /\
  (forall v : Z,
      outerRadius_input (Some v) dims
      = {| height := height dims;
           outerRadius := inject_Z (Z.max 5 (Z.min v 100));
           wallThickness := wallThickness dims;
           closedBottom := closedBottom dims |}) /\
  (forall v : Z,
      wallThickness_input (Some v) dims
      = {| height := height dims;
           outerRadius := outerRadius dims;
           wallThickness := inject_Z (Z.max 1 (Z.min v 20));
           closedBottom := closedBottom dims |}) /\
  (forall checked : bool,
      closedBottom_input checked dims
      = {| height := height dims;
           outerRadius := outerRadius dims;
           wallThickness := wallThickness dims;
           closedBottom := checked |}).
Proof.
  split; [repeat split|].
  split; [|split; [|split]].
  - intro v. unfold height_input. f_equal. apply (clamp_integral 10 200 v). lia.
  - intro v. unfold outerRadius_input. f_equal.
    apply (clamp_integral 5 100 v). lia.
  - intro v. unfold wallThickness_input. f_equal.
    apply (clamp_integral 1 20 v). lia.
  - intro checked. reflexivity.
Qed.

(** Whole dimensions inside the ranges of the controls. *)
Lemma typed_dimensions (es : list InputEvent) :
  forall dims,
    (exists h r w : Z,
        ((10 <= h <= 200) /\ (5 <= r <= 100) /\ (1 <= w <= 20))%Z /\
        height dims = inject_Z h /\ outerRadius dims = inject_Z r /\
        wallThickness dims = inject_Z w) ->
    exists h r w : Z,
      ((10 <= h <= 200) /\ (5 <= r <= 100) /\ (1 <= w <= 20))%Z /\
      height (inputs es dims) = inject_Z h /\
      outerRadius (inputs es dims) = inject_Z r /\
      wallThickness (inputs es dims) = inject_Z w.
Proof.
  induction es as [|e es IH]; intros dims Inv; [exact Inv|].
  unfold inputs. cbn [fold_left]. apply IH.
  destruct Inv as [h [r [w [Hr [Eh [Er Ew]]]]]].
  destruct (dimension_inputs_saturate_aux dims) as [Ah [Ar Aw]].
  destruct e as [[v|] | [v|] | [v|] | checked]; cbn [input];
    try (exists h, r, w; (split; [exact Hr|]); repeat split; assumption).
  - exists (Z.max 10 (Z.min v 200)), r, w.
    split; [lia|]. split; [apply Ah | split; assumption].
  - exists h, (Z.max 5 (Z.min v 100)), w.
    split; [lia|]. split; [assumption | split; [apply Ar | assumption]].
  - exists h, r, (Z.max 1 (Z.min v 20)).
    split; [lia|]. split; [assumption | split; [assumption | apply Aw]].
Qed.

Lemma toFixed0_whole (n : Z) :
  (0 <= n)%Z -> JS.toFixed0 (inject_Z n) = decimal n.
Proof.
  intro Hn. rewrite toFixed0_nonneg.
  - f_equal. apply (Math_round_window (inject_Z n) n); lra.
  - change 0 with (inject_Z 0). rewrite <- Zle_Qle. exact Hn.
Qed.

Lemma toFixed0_doubled (n : Z) :
  (0 <= n)%Z -> JS.toFixed0 (inject_Z n * 2) = decimal (2 * n).
Proof.
  intro Hn.
  assert (0 <= inject_Z n) as Hq
      by (change 0 with (inject_Z 0); rewrite <- Zle_Qle; exact Hn).
  rewrite toFixed0_nonneg by lra.
  f_equal. apply (Math_round_window (inject_Z n * 2) (2 * n));
    rewrite inject_Z_mult; change (inject_Z 2) with 2; lra.
Qed.

(** X10.  After any stream of input events the target dimensions are
    whole numbers inside the ranges of the controls, and the download
    name spells exactly the diameter, the height and the wall
    thickness: no rounding takes place. *)
Theorem typed_dimensions_name (es : list InputEvent) :
  let dims := inputs es modelDimensions in
  exists h r w : Z,
    ((10 <= h <= 200) /\ (5 <= r <= 100) /\ (1 <= w <= 20))%Z /\
    height dims = inject_Z h /\
    outerRadius dims = inject_Z r /\
    wallThickness dims = inject_Z w /\
    filename dims
    = ("cylinder-" ++ decimal (2 * r) ++ "x" ++ decimal h
         ++ "-wall" ++ decimal w
         ++ "-" ++ (if closedBottom dims then "closed" else "open")
         ++ ".3mf")%string.
Proof.
  cbv zeta.
  destruct (typed_dimensions es modelDimensions) as [h [r [w [Hr [Eh [Er Ew]]]]]].
  { exists 50%Z, 25%Z, 3%Z. split; [lia|]. repeat split. }
  exists h, r, w. split; [exact Hr|].
  split; [exact Eh|]. split; [exact Er|]. split; [exact Ew|].
  unfold filename. rewrite Eh, Er, Ew.
  rewrite toFixed0_doubled by lia.
  rewrite !toFixed0_whole by lia.
  reflexivity.
Qed.

End Inputs.

(** ** The frame loop over whole runs *)

Section Runs.

Lemma run_app (es1 es2 : list Event) :
  forall s,
    run s (es1 ++ es2)
    = match run s es1 with
      | Some s1 => run s1 es2
      | None => None
      end.
Proof.
  induction es1 as [|e es1 IH]; intro s; [reflexivity|].
  cbn [app run]. destruct (step s e) as [s1|]; [apply IH | reflexivity].
Qed.

Lemma Forall_filter_keeps {A : Type} (P : A -> Prop) (f : A -> bool)
    (l : list A) :
  Forall P l -> Forall P (filter f l).
Proof.
  intro H. apply Forall_forall. intros x Hx.
  apply filter_In in Hx. destruct Hx as [Hx _].
  rewrite Forall_forall in H. apply H. exact Hx.
Qed.

Lemma pairs_filter_keeps {A : Type} (R : A -> A -> Prop) (f : A -> bool)
    (l : list A) :
  ForallOrdPairs R l -> ForallOrdPairs R (filter f l).
Proof.
  induction 1 as [|a l Ha Hl IH]; [constructor|].
  cbn [filter]. destruct (f a); [|exact IH].
  constructor; [apply Forall_filter_keeps; exact Ha | exact IH].
Qed.

(** What is known when a frame starts a call although the marker is
    set. *)
Lemma start_with_marker (nowMillis started : Q) (needed : bool) :
  reloadModelNow nowMillis needed (Some started) = true ->
  100 < nowMillis - started.
Proof.
  unfold reloadModelNow. intro H. apply andb_true_iff in H.
  destruct H as [_ H]. apply Qlt_bool_true in H. exact H.
Qed.

Lemma spaced_step (s s' : LoopState) (e : Event) :
  (ForallOrdPairs far_after (inFlight s) /\
   match modelLoadStarted s with
   | None => inFlight s = []
   | Some t => Forall (fun c => call_started c <= t) (inFlight s)
   end) ->
  no_fulfilment e = true ->
  step s e = Some s' ->
  ForallOrdPairs far_after (inFlight s') /\
  match modelLoadStarted s' with
  | None => inFlight s' = []
  | Some t => Forall (fun c => call_started c <= t) (inFlight s')
  end.
Proof.
  intros [Hp Hm] Hev Hs. destruct e as [now inp | id o]; cbn in Hs.
  - destruct (frameRequested s); [|discriminate]. injection Hs as <-.
    destruct (reloadModelNow now
                (if dimensionsUpdated inp then true else reloadModelNeeded s)
                (modelLoadStarted s)) eqn:R.
    + destruct (loop_starts _ _ _ R) as [Hin [_ [Hmark _]]].
      rewrite Hin, Hmark.
      destruct (modelLoadStarted s) as [t|].
      * apply start_with_marker in R.
        split.
        { constructor; [|exact Hp].
          apply Forall_forall. intros c Hc.
          rewrite Forall_forall in Hm. specialize (Hm c Hc).
          unfold far_after. cbn [call_started]. lra. }
        { constructor; [cbn [call_started]; lra|].
          apply Forall_forall. intros c Hc.
          rewrite Forall_forall in Hm. specialize (Hm c Hc). lra. }
      * rewrite Hm. split.
        { constructor; constructor. }
        { constructor; [cbn [call_started]; lra | constructor]. }
    + destruct (loop_holds _ _ _ R) as [Hin [_ [Hmark _]]].
      rewrite Hin, Hmark. split; assumption.
  - destruct (find _ (inFlight s)) as [c|]; [|discriminate].
    injection Hs as <-.
    destruct o as [model|]; [discriminate Hev|].
    cbn [settle inFlight modelLoadStarted].
    split; [apply pairs_filter_keeps; exact Hp|].
    destruct (modelLoadStarted s) as [t|].
    + apply Forall_filter_keeps. exact Hm.
    + rewrite Hm. reflexivity.
Qed.

Lemma spaced_run (es : list Event) :
  forall s s',
    (ForallOrdPairs far_after (inFlight s) /\
     match modelLoadStarted s with
     | None => inFlight s = []
     | Some t => Forall (fun c => call_started c <= t) (inFlight s)
     end) ->
    forallb no_fulfilment es = true ->
    run s es = Some s' ->
    ForallOrdPairs far_after (inFlight s').
Proof.
  induction es as [|e es IH]; intros s s' Inv Hes Hrun; cbn in Hrun.
  - injection Hrun as <-. exact (proj1 Inv).
  - cbn [forallb] in Hes. apply andb_true_iff in Hes. destruct Hes as [He Hes].
    destruct (step s e) as [s1|] eqn:S1; [|discriminate].
    apply (IH s1 s'); [|exact Hes | exact Hrun].
    apply (spaced_step s s1 e); assumption.
Qed.

(** X11.  As long as no call has succeeded, the calls in flight were
    started more than 100 ms apart from one another, each later one
    more than 100 ms after every earlier one: the stuck-load escape
    admits at most one new call per 100 ms. *)
Theorem stuck_calls_are_spaced (es : list Event) (s : LoopState) :
  forallb no_fulfilment es = true ->
  run initial es = Some s ->
  ForallOrdPairs far_after (inFlight s).
Proof.
  intros Hes Hrun.
  apply (spaced_run es initial s); [|exact Hes | exact Hrun].
  split; [constructor | reflexivity].
Qed.

Lemma stuck_calls_are_spaced_witness :
  let es := [Frame 0 (at_rest 50 25 3 true);
             Frame 50 (height_moving 60 25 3 true);
             Frame 101 (height_moving 70 25 3 true);
             Frame 150 (height_moving 80 25 3 true);
             Settle 0 Rejected;
             Frame 202 (height_moving 90 25 3 true)] in
  exists s,
    (forallb no_fulfilment es = true /\ run initial es = Some s) /\
    ForallOrdPairs far_after (inFlight s) /\
    map call_started (inFlight s) = [202; 101].
Proof.
  cbv zeta.
  assert (exists s,
             run initial
               [Frame 0 (at_rest 50 25 3 true);
                Frame 50 (height_moving 60 25 3 true);
                Frame 101 (height_moving 70 25 3 true);
                Frame 150 (height_moving 80 25 3 true);
                Settle 0 Rejected;
                Frame 202 (height_moving 90 25 3 true)] = Some s
             /\ map call_started (inFlight s) = [202; 101]) as [s [Hs Hl]]
      by (eexists; split; reflexivity).
  exists s. split; [split; [reflexivity | exact Hs]|].
  split; [|exact Hl].
  exact (stuck_calls_are_spaced
           [Frame 0 (at_rest 50 25 3 true);
            Frame 50 (height_moving 60 25 3 true);
            Frame 101 (height_moving 70 25 3 true);
            Frame 150 (height_moving 80 25 3 true);
            Settle 0 Rejected;
            Frame 202 (height_moving 90 25 3 true)] s eq_refl Hs).
Defined.

Lemma step_counts_up (s s' : LoopState) (e : Event) :
  step s e = Some s' ->
  (callsStarted s <= callsStarted s')%nat /\
  (reloadModelNeeded s = true -> callsStarted s' = callsStarted s ->
   reloadModelNeeded s' = true).
Proof.
  intro Hs. destruct e as [now inp | id o]; cbn in Hs.
  - destruct (frameRequested s); [|discriminate]. injection Hs as <-.
    destruct (reloadModelNow now
                (if dimensionsUpdated inp then true else reloadModelNeeded s)
                (modelLoadStarted s)) eqn:R.
    + destruct (loop_starts _ _ _ R) as [_ [Hc _]].
      split; [lia|]. intros _ Heq. lia.
    + destruct (loop_holds _ _ _ R) as [_ [Hc [_ Hf]]].
      split; [lia|]. intros Hflag _. rewrite Hf, Hflag.
      destruct (dimensionsUpdated inp); reflexivity.
  - destruct (find _ (inFlight s)) as [c|]; [|discriminate].
    injection Hs as <-. destruct o; cbn; split; auto.
Qed.

Lemma run_counts_up (es : list Event) :
  forall s s', run s es = Some s' -> (callsStarted s <= callsStarted s')%nat.
Proof.
  induction es as [|e es IH]; intros s s' H; cbn in H.
  - injection H as <-. lia.
  - destruct (step s e) as [s1|] eqn:S1; [|discriminate].
    pose proof (proj1 (step_counts_up s s1 e S1)).
    pose proof (IH s1 s' H). lia.
Qed.

(** X12.  A pending reload is never dropped: along any run of frames
    and settlements, once the reload flag is set it stays set until a
    call is started. *)
Theorem pending_reload_is_kept (es : list Event) :
  forall s s',
    run s es = Some s' ->
    reloadModelNeeded s = true ->
    callsStarted s' = callsStarted s ->
    reloadModelNeeded s' = true.
Proof.
  induction es as [|e es IH]; intros s s' Hrun Hflag Hsame; cbn in Hrun.
  - injection Hrun as <-. exact Hflag.
  - destruct (step s e) as [s1|] eqn:S1; [|discriminate].
    destruct (step_counts_up s s1 e S1) as [Hle Hkeep].
    pose proof (run_counts_up es s1 s' Hrun) as Hle'.
    apply (IH s1 s' Hrun); [apply Hkeep; [exact Hflag | lia] | lia].
Qed.

Lemma pending_reload_is_kept_witness :
  let s := loop 0 (at_rest 50 25 3 true) initial in
  let es := [Frame 16 (height_moving 60 25 3 true);
             Frame 33 (at_rest 60 25 3 true);
             Settle 0 Rejected;
             Frame 50 (at_rest 60 25 3 true)] in
  exists s1 s',
    (run s [Frame 16 (height_moving 60 25 3 true)] = Some s1 /\
     run s1 (tl es) = Some s' /\
     reloadModelNeeded s1 = true /\ callsStarted s' = callsStarted s1) /\
    reloadModelNeeded s' = true.
Proof.
  cbv zeta.
  assert (exists s1 s',
             run (loop 0 (at_rest 50 25 3 true) initial)
               [Frame 16 (height_moving 60 25 3 true)] = Some s1 /\
             run s1 [Frame 33 (at_rest 60 25 3 true);
                     Settle 0 Rejected;
                     Frame 50 (at_rest 60 25 3 true)] = Some s' /\
             reloadModelNeeded s1 = true /\
             callsStarted s' = callsStarted s1)
    as [s1 [s' [H1 [H2 [H3 H4]]]]]
      by (eexists; eexists; repeat split; reflexivity).
  exists s1, s'. split; [repeat split; assumption|].
  exact (pending_reload_is_kept _ s1 s' H2 H3 H4).
Defined.

End Runs.

Section Scene.

Lemma frames_without_resize (gs : list (Q * FrameInput)) :
  forall s,
    centerCameraNeeded s = false ->
    Forall (fun f => canvasResized (snd f) = false) gs ->
    centered (frames gs s) = centered s /\
    centerCameraNeeded (frames gs s) = false.
Proof.
  induction gs as [|g gs IH]; intros s Hflag Hall; [split; [reflexivity | exact Hflag]|].
  inversion Hall as [|g' gs' Hg Hgs]; subst.
  unfold frames. cbn [fold_left]. fold (frames gs (loop (fst g) (snd g) s)).
  assert (centered (loop (fst g) (snd g) s) = centered s /\
          centerCameraNeeded (loop (fst g) (snd g) s) = false) as [H1 H2].
  { unfold loop. cbv zeta. cbn [centered centerCameraNeeded].
    rewrite Hg, Hflag. split; reflexivity. }
  destruct (IH _ H2 Hgs) as [I1 I2].
  split; [congruence | exact I2].
Qed.

(** X13.  The frame that follows a successful load re-centres the
    camera once and takes the flag down; the frames after it re-centre
    only when the canvas is resized. *)
Theorem one_recentring_per_load (s : LoopState) (c : Call) (model : Manifold)
    (nowMillis : Q) (inp : FrameInput) (gs : list (Q * FrameInput)) :
  Forall (fun f => canvasResized (snd f) = false) gs ->
  let s1 := loop nowMillis inp (settle c (Fulfilled model) s) in
  centered s1 = S (centered s) /\
  centerCameraNeeded s1 = false /\
  centered (frames gs s1) = centered s1 /\
  (forall now' inp',
      canvasResized inp' = true ->
      centered (loop now' inp' (frames gs s1)) = S (centered s1)).
Proof.
  intro Hall. cbv zeta.
  set (s1 := loop nowMillis inp (settle c (Fulfilled model) s)).
  assert (centered s1 = S (centered s) /\ centerCameraNeeded s1 = false)
    as [H1 H2].
  { unfold s1, loop. cbv zeta. cbn [centered centerCameraNeeded settle].
    destruct (canvasResized inp); split; reflexivity. }
  destruct (frames_without_resize gs s1 H2 Hall) as [F1 F2].
  split; [exact H1|]. split; [exact H2|]. split; [exact F1|].
  intros now' inp' Hres. unfold loop. cbv zeta. cbn [centered].
  rewrite Hres, F1. reflexivity.
Qed.

Lemma one_recentring_per_load_witness :
  let s := loop 0 (at_rest 50 25 3 true) initial in
  let c := {| call_id := 0; call_started := 0; call_height := 50;
              call_outerRadius := 25; call_wallThickness := 3;
              call_closedBottom := true |} in
  let gs := [(33, at_rest 50 25 3 true); (50, height_moving 51 25 3 true)] in
  Forall (fun f => canvasResized (snd f) = false) gs /\
  centered s = 1%nat /\
  centered (frames gs (loop 16 (at_rest 50 25 3 true)
                         (settle c (Fulfilled (cylinder 50 25)) s)))
  = 2%nat.
Proof.
  cbv zeta.
  assert (Forall (fun f => canvasResized (snd f) = false)
            [(33, at_rest 50 25 3 true); (50, height_moving 51 25 3 true)])
    as Hall by (repeat (apply Forall_cons; [reflexivity|]); apply Forall_nil).
  split; [exact Hall|]. split; [reflexivity|].
  destruct (one_recentring_per_load (loop 0 (at_rest 50 25 3 true) initial)
              {| call_id := 0; call_started := 0; call_height := 50;
                 call_outerRadius := 25; call_wallThickness := 3;
                 call_closedBottom := true |}
              (cylinder 50 25) 16 (at_rest 50 25 3 true) _ Hall)
    as [H1 [_ [H3 _]]].
  rewrite H3, H1. reflexivity.
Defined.

Lemma mesh_kept_without_fulfilment (es : list Event) :
  forall s s',
    forallb no_fulfilment es = true ->
    run s es = Some s' ->
    mesh_geometry s' = mesh_geometry s.
Proof.
  induction es as [|e es IH]; intros s s' Hes Hrun; cbn in Hrun.
  - injection Hrun as <-. reflexivity.
  - cbn [forallb] in Hes. apply andb_true_iff in Hes. destruct Hes as [He Hes].
    destruct (step s e) as [s1|] eqn:S1; [|discriminate].
    rewrite (IH s1 s' Hes Hrun).
    destruct e as [now inp | id o]; cbn in S1.
    + destruct (frameRequested s); [|discriminate].
      injection S1 as <-. reflexivity.
    + destruct (find _ (inFlight s)) as [c|]; [|discriminate].
      injection S1 as <-. destruct o; [discriminate He | reflexivity].
Qed.

(** X14.  The mesh shows the model of the call that succeeded last, in
    order of arrival: frames and failures never touch the geometry, and
    a success overwrites it whichever call it belongs to, so an older
    call that resolves after a newer one replaces the newer geometry. *)
Theorem mesh_shows_last_arrival (es1 es2 : list Event) (id : nat)
    (model : Manifold) (s s' : LoopState) :
  forallb no_fulfilment es2 = true ->
  run s (es1 ++ Settle id (Fulfilled model) :: es2) = Some s' ->
  mesh_geometry s' = mesh2geometry model.
Proof.
  intros Hes Hrun. rewrite run_app in Hrun.
  destruct (run s es1) as [s1|]; [|discriminate].
  cbn [run step] in Hrun.
  destruct (find _ (inFlight s1)) as [c|]; [|discriminate].
  rewrite (mesh_kept_without_fulfilment es2 _ s' Hes Hrun). reflexivity.
Qed.

Lemma mesh_shows_last_arrival_witness :
  let es1 := [Frame 0 (at_rest 50 25 3 true);
              Frame 150 (height_moving 80 25 3 true);
              Settle 1 (Fulfilled (cylinder 80 25))] in
  let es2 := [Frame 166 (at_rest 80 25 3 true)] in
  exists s',
    (forallb no_fulfilment es2 = true /\
     run initial (es1 ++ Settle 0 (Fulfilled (cylinder 50 25)) :: es2)
     = Some s') /\
    mesh_geometry s' = mesh2geometry (cylinder 50 25).
Proof.
  cbv zeta.
  assert (exists s',
             run initial
               ([Frame 0 (at_rest 50 25 3 true);
                 Frame 150 (height_moving 80 25 3 true);
                 Settle 1 (Fulfilled (cylinder 80 25))]
                ++ Settle 0 (Fulfilled (cylinder 50 25))
                   :: [Frame 166 (at_rest 80 25 3 true)]) = Some s')
    as [s' Hs] by (eexists; reflexivity).
  exists s'. split; [split; [reflexivity | exact Hs]|].
  exact (mesh_shows_last_arrival
           [Frame 0 (at_rest 50 25 3 true);
            Frame 150 (height_moving 80 25 3 true);
            Settle 1 (Fulfilled (cylinder 80 25))]
           [Frame 166 (at_rest 80 25 3 true)] 0 (cylinder 50 25)
           initial s' eq_refl Hs).
Defined.

End Scene.

(** ** The solids asked of the kernel *)

Section Solids.

Variables Math_cos Math_sin : Q -> Q.
Variable Math_random : nat -> Q.


Lemma cuts_of_fold {A : Type} (f : A -> Manifold) (l : list A) :
  forall stock0,
    Shape.cuts (fold_left (fun result i => subtract result (f i)) l stock0)
    = rev (map f l) ++ Shape.cuts stock0 /\
    Shape.stock (fold_left (fun result i => subtract result (f i)) l stock0)
    = Shape.stock stock0.
Proof.
  induction l as [|a l IH]; intro stock0; [split; reflexivity|].
  cbn [fold_left map rev]. destruct (IH (subtract stock0 (f a))) as [I1 I2].
  split; [|exact I2].
  rewrite I1. cbn [Shape.cuts]. rewrite <- app_assoc. reflexivity.
Qed.

Lemma Math_PI_nonzero : ~ JS.Math_PI == 0.
Proof. intro H. discriminate H. Qed.

Lemma of_nat_nonzero (n : nat) : (0 < n)%nat -> ~ Model.of_nat n == 0.
Proof.
  intros Hn H. unfold Model.of_nat in H.
  change 0 with (inject_Z 0) in H. rewrite inject_Z_injective in H. lia.
Qed.

(** X16.  The strip pattern is the plain cylinder with exactly
    [stripCount] thin cylinders subtracted, all of radius
    [stripWidth / 2] and 1.1 times the height, all placed at the
    mid-wall radius [(outerRadius + innerRadius) / 2], strip [i] turned
    by [i * 360 / stripCount] degrees about the axis. *)
Theorem strips_are_evenly_spaced (outerRadius innerRadius height : Q)
    (stripCount : nat) (stripWidth : Q) :
  let pattern :=
    Model.createStripPattern outerRadius innerRadius height
      stripCount stripWidth in
  Shape.stock pattern = cylinder height outerRadius /\
  List.length (Shape.cuts pattern) = stripCount /\
  exists degrees : nat -> Q,
    (forall i, (i < stripCount)%nat ->
               degrees i == Model.of_nat i * 360 / Model.of_nat stripCount) /\
    rev (Shape.cuts pattern)
    = map (fun i =>
             rotate (translate (cylinder (height * 1.1) (stripWidth / 2))
                               ((outerRadius + innerRadius) / 2, 0, 0))
                    (0, 0, degrees i))
          (seq 0 stripCount).
Proof.
  cbv zeta. unfold Model.createStripPattern, Model.indices.
  match goal with
  | |- context [fold_left (fun result i => subtract result (@?f i)) _ _] =>
      destruct (cuts_of_fold f (seq 0 stripCount) (cylinder height outerRadius))
        as [Hc Hs]
  end.
  cbv beta in Hc, Hs.
  split; [exact Hs|].
  rewrite Hc. cbn [Shape.cuts]. rewrite app_nil_r.
  split; [rewrite length_rev, length_map, length_seq; reflexivity|].
  exists (fun i =>
            (Model.of_nat i * 2 * JS.Math_PI / Model.of_nat stripCount) * 180
            / JS.Math_PI).
  split; [|rewrite rev_involutive; reflexivity].
  intros i Hi. field.
  split; [apply of_nat_nonzero; lia | apply Math_PI_nonzero].
Qed.

Lemma strips_are_evenly_spaced_witness :
  (3 < 8)%nat /\
  exists degrees : nat -> Q,
    degrees 3%nat == 135 /\
    rev (Shape.cuts (Model.createStripPattern 25 22 50 8 0.3))
    = map (fun i =>
             rotate (translate (cylinder (50 * 1.1) (0.3 / 2))
                               ((25 + 22) / 2, 0, 0))
                    (0, 0, degrees i))
          (seq 0 8).
Proof.
  assert (3 < 8)%nat as H by lia.
  split; [exact H|].
  destruct (strips_are_evenly_spaced 25 22 50 8 0.3) as [_ [_ [degrees [Hd He]]]].
  exists degrees. split; [|exact He].
  rewrite (Hd 3%nat H). reflexivity.
Defined.

End Solids.


Section Patterns.

Variables Math_cos Math_sin : Q -> Q.
Variable Math_random : nat -> Q.

(** The holes of the Voronoi pattern, whatever the running index. *)
Lemma holes_of_fold (height : Q) (cellCount : nat) (points : list Vec2) :
  (forall k, unit_interval (Math_random k)) ->
  forall (result : Manifold) (j : nat),
    let made :=
      fst (fold_left
             (fun (acc : Manifold * nat) (point : Vec2) =>
                let (result, j) := acc in
                let holeRadius :=
                  0.8 + Math_random (2 * cellCount + j)%nat * 1.2 in
                let hole :=
                  translate (cylinder (height * 1.1) holeRadius)
                            (fst point, snd point, 0) in
                (subtract result hole, S j))
             points (result, j)) in
    Shape.stock made = Shape.stock result /\
    exists holes,
      Shape.cuts made = holes ++ Shape.cuts result /\
      List.length holes = List.length points /\
      Forall (fun hole =>
                exists radius x y,
                  hole = translate (cylinder (height * 1.1) radius) (x, y, 0)
                  /\ 0.8 <= radius /\ radius < 2)
             holes.
Proof.
  intro Hrnd. induction points as [|pt points IH]; intros result j; cbv zeta.
  - split; [reflexivity|]. exists []. repeat split. constructor.
  - cbn [fold_left].
    destruct (IH (subtract result
                    (translate
                       (cylinder (height * 1.1)
                          (0.8 + Math_random (2 * cellCount + j)%nat * 1.2))
                       (fst pt, snd pt, 0)))
                 (S j)) as [Hs [holes [Hc [Hl Hall]]]].
    cbv zeta in Hs, Hc.
    split; [rewrite Hs; reflexivity|].
    exists (holes ++
            [translate
               (cylinder (height * 1.1)
                  (0.8 + Math_random (2 * cellCount + j)%nat * 1.2))
               (fst pt, snd pt, 0)]).
    split; [rewrite Hc; cbn [Shape.cuts]; rewrite <- app_assoc; reflexivity|].
    split; [rewrite length_app, Hl; cbn; lia|].
    apply Forall_app. split; [exact Hall|].
    constructor; [|constructor].
    do 3 eexists. split; [reflexivity|].
    destruct (Hrnd (2 * cellCount + j)%nat) as [H0 H1]. split; lra.
Qed.

(** X17.  When [Math.random] returns values of [0, 1), the Voronoi
    pattern is the plain cylinder with exactly [cellCount] holes
    subtracted, each a vertical cylinder 1.1 times the height with a
    radius from 0.8 up to, but not reaching, 2. *)
Theorem voronoi_holes (outerRadius innerRadius height : Q) (cellCount : nat) :
  (forall k, unit_interval (Math_random k)) ->
  let pattern :=
    Model.createVoronoiPattern Math_cos Math_sin Math_random
      outerRadius innerRadius height cellCount in
  Shape.stock pattern = cylinder height outerRadius /\
  List.length (Shape.cuts pattern) = cellCount /\
  Forall (fun hole =>
            exists radius x y,
              hole = translate (cylinder (height * 1.1) radius) (x, y, 0)
              /\ 0.8 <= radius /\ radius < 2)
         (Shape.cuts pattern).
Proof.
  intro Hrnd. cbv zeta. unfold Model.createVoronoiPattern. cbv zeta.
  match goal with
  | |- context [fold_left _ ?pts (cylinder height outerRadius, O)] =>
      destruct (holes_of_fold height cellCount pts Hrnd
                  (cylinder height outerRadius) O)
        as [Hs [holes [Hc [Hl Hall]]]]
  end.
  cbv zeta in Hs, Hc.
  split; [exact Hs|].
  rewrite Hc. cbn [Shape.cuts]. rewrite app_nil_r.
  split; [|exact Hall].
  rewrite Hl. unfold Model.indices. rewrite length_map, length_seq. reflexivity.
Qed.

(** X18.  When [Math.random] returns values of [0, 1) and the outer
    radius is not negative, the low-poly pattern is the extrusion, to
    the given height, of a polygon with exactly [facets] vertices, each
    at a distance factor between 0.9 and 1.1 times the outer radius
    along its direction. *)
Theorem lowpoly_vertices (outerRadius height : Q) (facets : nat) :
  (forall k, unit_interval (Math_random k)) ->
  0 <= outerRadius ->
  exists vs,
    Model.createLowPolyPattern Math_cos Math_sin Math_random
      outerRadius height facets
    = extrude (NewCrossSection vs) height /\
    List.length vs = facets /\
    Forall (fun v : Vec2 =>
              exists radius angle,
                v = (radius * Math_cos angle, radius * Math_sin angle) /\
                0.9 * outerRadius <= radius /\ radius <= 1.1 * outerRadius)
           vs.
Proof.
  intros Hrnd Hr. unfold Model.createLowPolyPattern. cbv zeta.
  eexists. split; [reflexivity|].
  split; [unfold Model.indices; rewrite length_map, length_seq; reflexivity|].
  apply Forall_forall. intros v Hv. apply in_map_iff in Hv.
  destruct Hv as [i [<- _]].
  do 2 eexists. split; [reflexivity|].
  destruct (Hrnd i) as [H0 H1].
  pose proof (Qmult_le_0_compat _ _ Hr H0) as P0.
  assert (outerRadius * Math_random i <= outerRadius * 1) as P1.
  { apply Qmult_le_compat_nonneg; split; lra. }
  set (rx := outerRadius * Math_random i) in *.
  assert (outerRadius * (0.9 + Math_random i * 0.2)
          == 0.9 * outerRadius + 0.2 * rx) as E by (unfold rx; ring).
  rewrite E. split; lra.
Qed.

(** X19.  The three-argument version of [hollowCylinder] makes a tube:
    the cavity is as high as the outer solid and starts at the bottom,
    with radius [max(0, outerRadius - wallThickness)], which does not
    exceed the outer radius when the wall thickness is not negative.
    The five-argument version with an open bottom and the normal
    pattern asks the kernel for the same two solids, the cavity moved
    by the zero vector. *)
Theorem first_version_is_open_tube (height outerRadius wallThickness : Q) :
  exists innerRadius,
    Model0.hollowCylinder Math_cos Math_sin height outerRadius wallThickness
    = subtract (extrude (Model.circle Math_cos Math_sin outerRadius) height)
               (extrude (Model.circle Math_cos Math_sin innerRadius) height) /\
    Model.hollowCylinder Math_cos Math_sin Math_random
      height outerRadius wallThickness false Model.normal
    = subtract (extrude (Model.circle Math_cos Math_sin outerRadius) height)
               (translate
                  (extrude (Model.circle Math_cos Math_sin innerRadius) height)
                  (0, 0, 0)) /\
    innerRadius == Qmax 0 (outerRadius - wallThickness) /\
    (0 <= outerRadius -> 0 <= wallThickness -> innerRadius <= outerRadius).
Proof.
  exists (JS.Math_max 0 (outerRadius - wallThickness)).
  split; [reflexivity|]. split; [reflexivity|].
  split; [apply Math_max_is_max|].
  intros Hr Hw. rewrite Math_max_is_max.
  apply Q.max_lub; lra.
Qed.

End Patterns.

Lemma voronoi_holes_witness :
  let rnd := fun _ : nat => 1 # 2 in
  (forall k, unit_interval (rnd k)) /\
  List.length
    (Shape.cuts
       (Model.createVoronoiPattern (fun _ => 1) (fun _ => 0) rnd 25 22 50 20))
  = 20%nat.
Proof.
  cbv zeta.
  assert (forall k : nat, unit_interval ((fun _ : nat => 1 # 2) k)) as H
      by (intro k; split; [discriminate | reflexivity]).
  split; [exact H|].
  exact (proj1 (proj2 (voronoi_holes (fun _ => 1) (fun _ => 0)
                         (fun _ => 1 # 2) 25 22 50 20 H))).
Defined.

Lemma lowpoly_vertices_witness :
  let rnd := fun _ : nat => 1 # 2 in
  ((forall k, unit_interval (rnd k)) /\ 0 <= 25) /\
  exists vs,
    Model.createLowPolyPattern (fun _ => 1) (fun _ => 0) rnd 25 50 12
    = extrude (NewCrossSection vs) 50 /\
    List.length vs = 12%nat.
Proof.
  cbv zeta.
  assert (forall k : nat, unit_interval ((fun _ : nat => 1 # 2) k)) as H
      by (intro k; split; [discriminate | reflexivity]).
  assert (0 <= 25) as Hr by discriminate.
  split; [split; assumption|].
  destruct (lowpoly_vertices (fun _ => 1) (fun _ => 0) (fun _ => 1 # 2)
              25 50 12 H Hr) as [vs [E [L _]]].
  exists vs. split; assumption.
Defined.

(** ** The module loader *)

Section Loading.

Lemma loaded_step (s s' : Loader.ManifoldModule) (e : Loader.LoaderEvent) :
  Loader.step s e = Some s' ->
  Loader.wasm s <> None ->
  Loader.inits s' = Loader.inits s /\ Loader.wasm s' <> None.
Proof.
  intros Hs Hw. destruct e as [| k m | k]; cbn in Hs.
  - destruct (Loader.wasm s) as [m|] eqn:W; [|contradiction].
    injection Hs as <-. cbn. split; [reflexivity | discriminate].
  - destruct (nth_error (Loader.calls s) k) as [[| |m']|]; try discriminate.
    injection Hs as <-. cbn. split; [reflexivity | discriminate].
  - destruct (nth_error (Loader.calls s) k) as [[| |m']|]; try discriminate.
    destruct (Loader.wasm s) as [m|] eqn:W; [|discriminate].
    injection Hs as <-. cbn. split; [reflexivity | discriminate].
Qed.

(** X20.  Once a module has been stored in [ManifoldModule.wasm] it
    is never cleared, and no later call of [get], however the pending
    calls resume, calls [init] again. *)
Theorem loaded_module_is_reused (es : list Loader.LoaderEvent) :
  forall s s',
    Loader.run s es = Some s' ->
    Loader.wasm s <> None ->
    Loader.inits s' = Loader.inits s /\ Loader.wasm s' <> None.
Proof.
  induction es as [|e es IH]; intros s s' Hrun Hw; cbn in Hrun.
  - injection Hrun as <-. split; [reflexivity | exact Hw].
  - destruct (Loader.step s e) as [s1|] eqn:S1; [|discriminate].
    destruct (loaded_step s s1 e S1 Hw) as [H1 H2].
    destruct (IH s1 s' Hrun H2) as [I1 I2].
    split; [congruence | exact I2].
Qed.

Lemma loaded_module_is_reused_witness :
  exists s1 s',
    (Loader.run Loader.unloaded
       [Loader.Get; Loader.InitResolved 0 7; Loader.SetupResolved 0] = Some s1 /\
     Loader.run s1 [Loader.Get; Loader.Get; Loader.Get] = Some s' /\
     Loader.wasm s1 <> None) /\
    Loader.inits s' = 1%nat /\
    Loader.calls s'
    = [Loader.Returned 7; Loader.Returned 7; Loader.Returned 7;
       Loader.Returned 7].
Proof.
  assert (exists s1 s',
             Loader.run Loader.unloaded
               [Loader.Get; Loader.InitResolved 0 7; Loader.SetupResolved 0]
             = Some s1 /\
             Loader.run s1 [Loader.Get; Loader.Get; Loader.Get] = Some s' /\
             Loader.inits s1 = 1%nat /\
             Loader.wasm s1 = Some 7%nat /\
             Loader.calls s'
             = [Loader.Returned 7; Loader.Returned 7; Loader.Returned 7;
                Loader.Returned 7])
    as [s1 [s' [H1 [H2 [H3 [H4 H5]]]]]]
      by (do 2 eexists; repeat split; reflexivity).
  assert (Loader.wasm s1 <> None) as Hw by (rewrite H4; discriminate).
  exists s1, s'. split; [repeat split; assumption|].
  split; [|exact H5].
  rewrite (proj1 (loaded_module_is_reused _ s1 s' H2 Hw)). exact H3.
Defined.

(** X21.  Every call of [get] made before the first [init] has
    resolved calls [init] again: [n] such calls make [n] calls of
    [init], all left suspended, and the field is still empty. *)
Theorem gets_before_load_each_init (n : nat) :
  forall s,
    Loader.wasm s = None ->
    exists s',
      Loader.run s (repeat Loader.Get n) = Some s' /\
      Loader.inits s' = (Loader.inits s + n)%nat /\
      Loader.wasm s' = None /\
      Loader.calls s' = Loader.calls s ++ repeat Loader.AwaitingInit n.
Proof.
  induction n as [|n IH]; intros s Hw.
  - exists s. cbn. rewrite app_nil_r. repeat split; [lia | exact Hw].
  - cbn [repeat Loader.run Loader.step]. rewrite Hw.
    destruct (IH {| Loader.wasm := None;
                    Loader.calls := Loader.calls s ++ [Loader.AwaitingInit];
                    Loader.inits := S (Loader.inits s);
                    Loader.setups := Loader.setups s |} eq_refl)
      as [s' [Hrun [Hi [Hw' Hc]]]].
    exists s'. split; [exact Hrun|].
    cbn [Loader.inits Loader.calls] in Hi, Hc.
    split; [lia|]. split; [exact Hw'|].
    rewrite Hc, <- app_assoc. reflexivity.
Qed.

Lemma gets_before_load_each_init_witness :
  Loader.wasm Loader.unloaded = None /\
  exists s',
    Loader.run Loader.unloaded [Loader.Get; Loader.Get] = Some s' /\
    Loader.inits s' = 2%nat.
Proof.
  split; [reflexivity|].
  destruct (gets_before_load_each_init 2 Loader.unloaded eq_refl)
    as [s' [Hrun [Hi _]]].
  exists s'. split; [exact Hrun | exact Hi].
Defined.

End Loading.

Lemma first_version_is_open_tube_witness :
  (0 <= 25 /\ 0 <= 3) /\
  exists innerRadius,
    Model0.hollowCylinder (fun _ => 1) (fun _ => 0) 50 25 3
    = subtract (extrude (Model.circle (fun _ => 1) (fun _ => 0) 25) 50)
               (extrude (Model.circle (fun _ => 1) (fun _ => 0) innerRadius) 50)
    /\ innerRadius <= 25.
Proof.
  assert (0 <= 25) as Hr by discriminate.
  assert (0 <= 3) as Hw by discriminate.
  split; [split; assumption|].
  destruct (first_version_is_open_tube (fun _ => 1) (fun _ => 0)
              (fun _ => 1 # 2) 50 25 3) as [ir [E [_ [_ H]]]].
  exists ir. split; [exact E | exact (H Hr Hw)].
Defined.
